(** * router/api.go: from an API definition to router mounts

    A shallow embedding of [AWSServerlessApi.Swagger], [AWSServerlessApi.Mounts],
    [parseIntegrationSettings] and [createMount], together with the parts of
    [encoding/json] and [go-openapi/spec] these functions call.

    Conventions.
    - A Go call returning [(v, err)] is a [Result]; a function of this package
      that can also stop with a run-time panic is an [Outcome].
    - A Go [interface{}] holding decoded JSON is a [JSON] tree; the Go [nil]
      interface is [JNull].
    - A [[]byte] is either octets that came from outside ([RawBytes]) or the
      output of [json.Marshal], kept as the tree it is the text of
      ([JsonBytes]); decoding the latter gives the tree back. *)

From Stdlib Require Import QArith Ascii.
From stdpp Require Import gmap strings list fin_maps.

Local Set Warnings "-register-all".
Local Open Scope string_scope.
Local Open Scope list_scope.

(** ** Results *)

Definition error := string.

Inductive Result (A : Type) : Type :=
  | Ok (a : A)
  | Err (e : error).
Arguments Ok {A} a.
Arguments Err {A} e.

Inductive Outcome (A : Type) : Type :=
  | Returns (a : A)
  | Fails (e : error)
  | Panics (msg : string).
Arguments Returns {A} a.
Arguments Fails {A} e.
Arguments Panics {A} msg.

Global Instance Result_ret : MRet Result := λ A a, Ok a.
Global Instance Result_bind : MBind Result := λ A B f r,
  match r with
  | Ok a => f a
  | Err e => Err e
  end.

Definition outcome {A} (r : Result A) : Outcome A :=
  match r with
  | Ok a => Returns a
  | Err e => Fails e
  end.

(** [for _, x := range l { s, err = body(x, s); if err != nil { return err } }] *)
Fixpoint forRange {A S : Type} (body : A → S → Result S) (l : list A) (s : S) : Result S :=
  match l with
  | [] => Ok s
  | x :: rest =>
      match body x s with
      | Ok s' => forRange body rest s'
      | Err e => Err e
      end
  end.

(** ** Strings *)

Definition toLower (c : Ascii.ascii) : Ascii.ascii :=
  let n := Ascii.N_of_ascii c in
  if ((65 <=? n) && (n <=? 90))%N then Ascii.ascii_of_N (n + 32) else c.

(** [strings.ToLower], on the ASCII letters. *)
Fixpoint strings_ToLower (s : string) : string :=
  match s with
  | EmptyString => EmptyString
  | String c rest => String (toLower c) (strings_ToLower rest)
  end.

(** [strings.HasPrefix(s, prefix)] *)
Definition strings_HasPrefix (s prefix : string) : bool := String.prefix prefix s.

Definition quote : Ascii.ascii := Ascii.ascii_of_N 34.

(** ** JSON values and byte slices *)

Inductive JSON : Type :=
  | JNull
  | JBool (b : bool)
  | JNumber (q : Q)
  | JString (s : string)
  | JArray (l : list JSON)
  | JObject (m : gmap string JSON).

Inductive bytes : Type :=
  | RawBytes (s : string)
  | JsonBytes (j : JSON).

(** The name [encoding/json] gives the kind of a value in its errors. *)
Definition kindName (j : JSON) : string :=
  match j with
  | JNull => "null"
  | JBool _ => "bool"
  | JNumber _ => "number"
  | JString _ => "string"
  | JArray _ => "array"
  | JObject _ => "object"
  end.

(** ** go-openapi/spec: the document model *)

(** [VendorExtensible]: the [x-...] entries of an object. *)
Record VendorExtensible : Type := { Extensions : gmap string JSON }.

(** [Operation]; its [OperationProps], which api.go never reads, are left out. *)
Record Operation : Type := { Operation_VendorExtensible :> VendorExtensible }.

(** [PathItemProps]: one [*Operation] per method ([None] is the nil pointer).
    [Parameters] is kept as the JSON it encodes to. *)
Record PathItemProps : Type := {
  Get : option Operation;
  Put : option Operation;
  Post : option Operation;
  Delete : option Operation;
  Options : option Operation;
  Head : option Operation;
  Patch : option Operation;
  Parameters : JSON
}.

(** [PathItem] embeds [Refable], [VendorExtensible] and [PathItemProps].
    [Ref] is kept as the JSON object it encodes to. *)
Record PathItem : Type := {
  Ref : JSON;
  PathItem_VendorExtensible :> VendorExtensible;
  PathItem_PathItemProps :> PathItemProps
}.

Record Paths : Type := { Paths_Paths : gmap string PathItem }.

(** [SwaggerProps.Paths] has type [*Paths]: it is nil when the document has
    no ["paths"] member. *)
Record spec_Swagger : Type := { Swagger_Paths : option Paths }.

(** The test [strings.HasPrefix(strings.ToLower(k), "x-")] of
    [VendorExtensible.MarshalJSON] and [VendorExtensible.UnmarshalJSON]. *)
Definition isVendorKey (k : string) : bool :=
  strings_HasPrefix (strings_ToLower k) "x-".

Definition vendorEntries (m : gmap string JSON) : gmap string JSON :=
  filter (λ kv, isVendorKey kv.1 = true) m.

(** What [PathItem.JSONLookup] hands back in an [interface{}]. *)
Inductive GoValue : Type :=
  | VJSON (j : JSON)
  | VOperation (o : option Operation).

(** [jsonpointer.GetForToken(p.PathItemProps, token)]: the field whose JSON
    name is [token]. *)
Definition GetForToken (p : PathItemProps) (token : string) : Result GoValue :=
  if String.eqb token "get" then Ok (VOperation (Get p))
  else if String.eqb token "put" then Ok (VOperation (Put p))
  else if String.eqb token "post" then Ok (VOperation (Post p))
  else if String.eqb token "delete" then Ok (VOperation (Delete p))
  else if String.eqb token "options" then Ok (VOperation (Options p))
  else if String.eqb token "head" then Ok (VOperation (Head p))
  else if String.eqb token "patch" then Ok (VOperation (Patch p))
  else if String.eqb token "parameters" then Ok (VJSON (Parameters p))
  else Err ("object has no field " +:+ String quote token +:+ String quote EmptyString).

(** [PathItem.JSONLookup]: an extension of that name first, then ["$ref"],
    then the fields of [PathItemProps]. *)
Definition JSONLookup (p : PathItem) (token : string) : Result GoValue :=
  match Extensions p !! token with
  | Some ex => Ok (VJSON ex)
  | None =>
      if String.eqb token "$ref" then Ok (VJSON (Ref p))
      else GetForToken p token
  end.

(** The JSON text [json.Marshal] writes for a value: a nil pointer is
    [null]; an [Operation] is written by [Operation.MarshalJSON], whose
    vendor part is [VendorExtensible.MarshalJSON]. *)
Definition encode (v : GoValue) : JSON :=
  match v with
  | VJSON j => j
  | VOperation None => JNull
  | VOperation (Some o) => JObject (vendorEntries (Extensions o))
  end.

(** ** GoFormation: the [AWS::Serverless::Api] resource *)

Record AWSServerlessApi_S3Location : Type := {
  Bucket : string;
  Key : string;
  Version : Z
}.

(** The field [String] is spelled [String_] here. *)
Record AWSServerlessApi_StringOrS3Location : Type := {
  String_ : option string;
  S3Location : option AWSServerlessApi_S3Location
}.

(** [DefinitionBody] is an [interface{}] filled by the template decoder. *)
Record AWSServerlessApi : Type := {
  DefinitionUri : option AWSServerlessApi_StringOrS3Location;
  DefinitionBody : JSON
}.

(** ** What api.go takes from elsewhere

    Declarations of package [router] that live outside api.go
    ([ApiGatewayIntegration], [LambdaFunctionArn], [GetFunctionArn]), the
    library decoders whose input is raw text or whose target type is not
    declared in api.go, the values [json.Marshal] refuses, the file system
    and the object store, and the order in which Go ranges over a map.
    [GetFunctionArn] returns a pointer and an error; [s3_GetObject] gives
    the error of the request or else the outcome of reading the body. *)

Record Collaborators : Type := {
  (* package router *)
  ApiGatewayIntegration : Type;
  LambdaFunctionArn : Type;
  GetFunctionArn : ApiGatewayIntegration → option LambdaFunctionArn * option error;
  (* encoding/json *)
  json_Marshal_error : GoValue → option error;
  json_Unmarshal : string → Result JSON;
  json_Unmarshal_ApiGatewayIntegration : bytes → Result ApiGatewayIntegration;
  (* go-openapi/spec *)
  Swagger_UnmarshalJSON : bytes → Result spec_Swagger;
  (* io/ioutil, aws-sdk-go *)
  ioutil_ReadFile : string → Result string;
  session_NewSession : Result unit;
  s3_GetObject : string → string → string → Result (Result string);
  (* for k, v := range m *)
  rangeOrder : gmap string PathItem → list (string * PathItem);
  (* laws: a map is ranged over entry by entry in some order; a nil
     interface is written as null without error; null decodes into a
     struct without error *)
  rangeOrder_Permutation : ∀ m, rangeOrder m ≡ₚ map_to_list m;
  json_Marshal_nil : json_Marshal_error (VJSON JNull) = None;
  json_Unmarshal_null :
    ∃ integration, json_Unmarshal_ApiGatewayIntegration (JsonBytes JNull) = Ok integration
}.

(** package router: [ServerlessRouterMount], with the fields api.go sets. *)
Record ServerlessRouterMount (Arn : Type) : Type := {
  Name : string;
  Path : string;
  Method : string;
  IntegrationArn : option Arn
}.
Arguments Name {Arn} _.
Arguments Path {Arn} _.
Arguments Method {Arn} _.
Arguments IntegrationArn {Arn} _.

(** Modelled from the spec: [HttpMethods], the list of supported methods of
    package [router], is declared outside api.go; the spec fixes it as
    GET, POST, PUT, DELETE, PATCH, HEAD, OPTIONS. *)
Definition HttpMethods : list string :=
  ["GET"; "POST"; "PUT"; "DELETE"; "PATCH"; "HEAD"; "OPTIONS"].

Definition apiGatewayIntegrationExtension : string := "x-amazon-apigateway-integration".
Definition apiGatewayAnyMethodExtension : string := "x-amazon-apigateway-any-method".

Record ApiGatewayAnyMethod : Type := { IntegrationSettings : JSON }.

Definition newline : string := String (Ascii.ascii_of_N 10) EmptyString.

Definition byte (z : Z) : Ascii.ascii := Ascii.ascii_of_N (Z.to_N z).

(** The conversion [string(n)] of an [int]: the UTF-8 encoding of the code
    point [n], of U+FFFD when [n] is not a valid code point. *)
Definition string_of_int (n : Z) : string :=
  let continuation (k : Z) := byte (Z.lor 128 (Z.land (Z.shiftr n k) 63)) in
  if ((n <? 0) || (1114111 <? n) || ((55296 <=? n) && (n <=? 57343)))%Z then
    String (byte 239) (String (byte 191) (String (byte 189) EmptyString))
  else if (n <? 128)%Z then String (byte n) EmptyString
  else if (n <? 2048)%Z then
    String (byte (Z.lor 192 (Z.shiftr n 6))) (String (continuation 0%Z) EmptyString)
  else if (n <? 65536)%Z then
    String (byte (Z.lor 224 (Z.shiftr n 12)))
      (String (continuation 6%Z) (String (continuation 0%Z) EmptyString))
  else
    String (byte (Z.lor 240 (Z.shiftr n 18)))
      (String (continuation 12%Z)
         (String (continuation 6%Z) (String (continuation 0%Z) EmptyString))).

Section Api.
Context (c : Collaborators).

Abbreviation Mount := (ServerlessRouterMount (LambdaFunctionArn c)).

(** *** encoding/json *)

Definition json_Marshal (v : GoValue) : Result bytes :=
  match json_Marshal_error c v with
  | Some e => Err e
  | None => Ok (JsonBytes (encode v))
  end.

(** [json.Unmarshal(data, &v)] for [v] an empty [interface{}]. *)
Definition decode (data : bytes) : Result JSON :=
  match data with
  | JsonBytes j => Ok j
  | RawBytes s => json_Unmarshal c s
  end.

(** The member that sets the struct field tagged [name]: members are taken
    in the order of the text, which [json.Marshal] sorts by key, a member
    sets the field when its key equals [name] up to the case of letters,
    and the last one to do so stays. *)
Definition fieldMember (name : string) (m : gmap string JSON) : option (string * JSON) :=
  foldr (λ kv best,
           if String.eqb (strings_ToLower kv.1) (strings_ToLower name) then
             match best with
             | Some b => if String.ltb b.1 kv.1 then Some kv else best
             | None => Some kv
             end
           else best)
        None (map_to_list m).

(** [json.Unmarshal(data, &anyMethodObject)] on a zero [ApiGatewayAnyMethod]. *)
Definition json_Unmarshal_ApiGatewayAnyMethod (data : bytes) : Result ApiGatewayAnyMethod :=
  match decode data with
  | Err e => Err e
  | Ok JNull => Ok {| IntegrationSettings := JNull |}
  | Ok (JObject m) =>
      Ok {| IntegrationSettings :=
              match fieldMember apiGatewayIntegrationExtension m with
              | Some kv => kv.2
              | None => JNull
              end |}
  | Ok j =>
      Err ("json: cannot unmarshal " +:+ kindName j
           +:+ " into Go value of type router.ApiGatewayAnyMethod")
  end.

(** [operation.UnmarshalJSON(data)] on a zero [spec.Operation]; the error
    it returns is dropped by the caller and is not represented.  The
    properties are decoded first and the extensions after them, only when
    that went through; decoding the properties of an object is taken to go
    through, as it does for every object written from an [Operation]. *)
Definition Operation_UnmarshalJSON (data : bytes) : Operation :=
  match decode data with
  | Ok (JObject m) => {| Operation_VendorExtensible := {| Extensions := vendorEntries m |} |}
  | _ => {| Operation_VendorExtensible := {| Extensions := ∅ |} |}
  end.

(** *** Swagger: the definition as bytes *)

Definition getSwaggerFromURI (uri : string) : Outcome bytes :=
  match ioutil_ReadFile c uri with
  | Err e => Fails ("Cannot read local Swagger definition (" +:+ uri +:+ "): " +:+ e)
  | Ok data => Returns (RawBytes data)
  end.

Definition getSwaggerFromS3Location (loc : AWSServerlessApi_S3Location) : Outcome bytes :=
  match session_NewSession c with
  | Err e => Panics e
  | Ok _ =>
      let objectVersion := string_of_int (Version loc) in
      match s3_GetObject c (Bucket loc) (Key loc) objectVersion with
      | Err e =>
          Fails ("Error while fetching Swagger template from S3: "
                 +:+ (Bucket loc +:+ Key loc) +:+ newline +:+ e)
      | Ok (Err e) => Fails ("Cannot read s3 Swagger boject body: " +:+ e)
      | Ok (Ok body) => Returns (RawBytes body)
      end
  end.

Definition getSwaggerFromString (input : string) : Outcome bytes :=
  Returns (RawBytes input).

Definition getSwaggerFromMap (input : gmap string JSON) : Outcome bytes :=
  outcome (json_Marshal (VJSON (JObject input))).

(** The four ways to give the definition, tried in this order. *)
Definition Swagger (api : AWSServerlessApi) : Outcome bytes :=
  match DefinitionUri api ≫= String_ with
  | Some uri => getSwaggerFromURI uri
  | None =>
      match DefinitionUri api ≫= S3Location with
      | Some loc => getSwaggerFromS3Location loc
      | None =>
          match DefinitionBody api with
          | JString val => getSwaggerFromString val
          | JObject val => getSwaggerFromMap val
          | _ => Fails "no swagger definition found"
          end
      end
  end.

(** *** Mounts *)

Definition parseIntegrationSettings (integrationData : JSON) : option (ApiGatewayIntegration c) :=
  match json_Marshal (VJSON integrationData) with
  | Err _ => None
  | Ok integrationJson =>
      match json_Unmarshal_ApiGatewayIntegration c integrationJson with
      | Err _ => None
      | Ok integration => Some integration
      end
  end.

Definition createMount (path verb : string) (integration : option (ApiGatewayIntegration c)) : Mount :=
  let newMount := {| Name := path; Path := path; Method := verb; IntegrationArn := None |} in
  match integration with
  | None => newMount
  | Some integration =>
      let '(functionName, _) := GetFunctionArn c integration in
      {| Name := Name newMount; Path := Path newMount; Method := Method newMount;
         IntegrationArn := functionName |}
  end.

(** The body of [for _, method := range HttpMethods] in the first pass; the
    state is [mounts] and [mappedMethods]. *)
Definition mountMethod (path : string) (pathItem : PathItem) (method : string)
    (st : list Mount * gmap string bool) : Result (list Mount * gmap string bool) :=
  let '(mounts, mappedMethods) := st in
  match JSONLookup pathItem (strings_ToLower method) with
  | Err _ => Ok st
  | Ok operationIface =>
      match json_Marshal operationIface with
      | Err e => Err ("Could not parse " +:+ method +:+ " operation: " +:+ e)
      | Ok operationJson =>
          let operation := Operation_UnmarshalJSON operationJson in
          match Extensions operation !! apiGatewayIntegrationExtension with
          | None | Some JNull => Ok st
          | Some integration =>
              Ok (mounts ++ [createMount path (strings_ToLower method)
                               (parseIntegrationSettings integration)],
                  <[method := true]> mappedMethods)
          end
      end
  end.

(** The body of [for _, method := range HttpMethods] in the any-method pass. *)
Definition mountAnyMethod (path : string) (anyMethodObject : ApiGatewayAnyMethod)
    (mappedMethods : gmap string bool) (mounts : list Mount) (method : string) : list Mount :=
  match mappedMethods !! method with
  | Some _ => mounts
  | None =>
      mounts ++ [createMount path (strings_ToLower method)
                   (parseIntegrationSettings (IntegrationSettings anyMethodObject))]
  end.

(** The body of [for path, pathItem := range swagger.Paths.Paths]. *)
Definition mountPath (entry : string * PathItem) (mounts : list Mount) : Result (list Mount) :=
  let '(path, pathItem) := entry in
  match forRange (mountMethod path pathItem) HttpMethods (mounts, ∅) with
  | Err e => Err e
  | Ok (mounts, mappedMethods) =>
      match Extensions pathItem !! apiGatewayAnyMethodExtension with
      | None => Ok mounts
      | Some anyMethod =>
          match json_Marshal (VJSON anyMethod) with
          | Err _ => Err "Could not marshal any method object to json"
          | Ok anyMethodJson =>
              match json_Unmarshal_ApiGatewayAnyMethod anyMethodJson with
              | Err _ => Err "Could not unmarshal any method josn to object model"
              | Ok anyMethodObject =>
                  Ok (fold_left (mountAnyMethod path anyMethodObject mappedMethods)
                        HttpMethods mounts)
              end
          end
      end
  end.

Definition Mounts (api : AWSServerlessApi) : Outcome (list Mount) :=
  match Swagger api with
  | Fails e => Fails e
  | Panics msg => Panics msg
  | Returns jsonDefinition =>
      match Swagger_UnmarshalJSON c jsonDefinition with
      | Err e => Fails ("Cannot parse Swagger definition: " +:+ e)
      | Ok swagger =>
          match Swagger_Paths swagger with
          | None => Panics "runtime error: invalid memory address or nil pointer dereference"
          | Some paths =>
              outcome (forRange mountPath (rangeOrder c (Paths_Paths paths)) [])
          end
      end
  end.

End Api.

(** ** The loops of [Mounts], method by method

    Definitions used to state what the loops compute. *)

Section Passes.
Context (c : Collaborators).

Abbreviation Mount := (ServerlessRouterMount (LambdaFunctionArn c)).

(** What the first pass finds for one method: a fatal error, nothing to
    mount, or the integration payload to mount. *)
Definition integrationSeen (pathItem : PathItem) (method : string) : Result (option JSON) :=
  match JSONLookup pathItem (strings_ToLower method) with
  | Err _ => Ok None
  | Ok operationIface =>
      match json_Marshal c operationIface with
      | Err e => Err ("Could not parse " +:+ method +:+ " operation: " +:+ e)
      | Ok operationJson =>
          match Extensions (Operation_UnmarshalJSON c operationJson)
                  !! apiGatewayIntegrationExtension with
          | None | Some JNull => Ok None
          | Some integration => Ok (Some integration)
          end
      end
  end.

(** The mount the first pass appends for a method, if any. *)
Definition explicitMount (path : string) (pathItem : PathItem) (method : string) : list Mount :=
  match integrationSeen pathItem method with
  | Ok (Some integration) =>
      [createMount c path (strings_ToLower method) (parseIntegrationSettings c integration)]
  | _ => []
  end.

Definition explicitMounts (path : string) (pathItem : PathItem) (methods : list string) : list Mount :=
  methods ≫= explicitMount path pathItem.

(** Whether the first pass mounts a method. *)
Definition isMapped (pathItem : PathItem) (method : string) : bool :=
  match integrationSeen pathItem method with
  | Ok (Some _) => true
  | _ => false
  end.

(** The update of [mappedMethods] the first pass makes for a method. *)
Definition markMapped (pathItem : PathItem) (mappedMethods : gmap string bool) (method : string) :
    gmap string bool :=
  match integrationSeen pathItem method with
  | Ok (Some _) => <[method := true]> mappedMethods
  | _ => mappedMethods
  end.

Fixpoint methodsError (pathItem : PathItem) (methods : list string) : option error :=
  match methods with
  | [] => None
  | method :: rest =>
      match integrationSeen pathItem method with
      | Err e => Some e
      | Ok _ => methodsError pathItem rest
      end
  end.

(** The mount the any-method pass appends for a method it fills in. *)
Definition anyMount (path : string) (anyMethodObject : ApiGatewayAnyMethod) (method : string) : Mount :=
  createMount c path (strings_ToLower method)
    (parseIntegrationSettings c (IntegrationSettings anyMethodObject)).

(** [mappedMethods] when the first pass is over. *)
Definition mappedAfter (pathItem : PathItem) : gmap string bool :=
  foldl (markMapped pathItem) ∅ HttpMethods.

(** The mounts the any-method pass appends. *)
Definition wildcardMounts (path : string) (pathItem : PathItem) : list Mount :=
  match Extensions pathItem !! apiGatewayAnyMethodExtension with
  | None => []
  | Some anyMethod =>
      match json_Unmarshal_ApiGatewayAnyMethod c (JsonBytes anyMethod) with
      | Ok anyMethodObject =>
          anyMount path anyMethodObject
            <$> filter (λ method, mappedAfter pathItem !! method = None) HttpMethods
      | Err _ => []
      end
  end.

(** The mounts one iteration of the outer loop appends. *)
Definition pathMounts (entry : string * PathItem) : list Mount :=
  explicitMounts entry.1 entry.2 HttpMethods ++ wildcardMounts entry.1 entry.2.

End Passes.

(** ** Vocabulary of the claims *)

(** The operation a path item defines for a method, nil when it defines none. *)
Definition methodOperation (pathItem : PathItemProps) (method : string) : option Operation :=
  match GetForToken pathItem (strings_ToLower method) with
  | Ok (VOperation o) => o
  | _ => None
  end.

(** [VendorExtensible.UnmarshalJSON] keeps the [x-] members only, so the
    path items of a decoded document satisfy this. *)
Definition decodedExtensions (v : VendorExtensible) : Prop :=
  map_Forall (λ k _, isVendorKey k = true) (Extensions v).

(** [swagger] is the document [Mounts] decodes for [api]. *)
Definition parsesTo (c : Collaborators) (api : AWSServerlessApi) (swagger : spec_Swagger) : Prop :=
  ∃ jsonDefinition,
    Swagger c api = Returns jsonDefinition ∧
    Swagger_UnmarshalJSON c jsonDefinition = Ok swagger.

Definition pathItemAt (swagger : spec_Swagger) (path : string) : option PathItem :=
  Swagger_Paths swagger ≫= λ paths, Paths_Paths paths !! path.

(** The handler reference [createMount] stores for a parsed integration. *)
Definition handlerOf (c : Collaborators) (integration : option (ApiGatewayIntegration c)) :
    option (LambdaFunctionArn c) :=
  integration ≫= λ i, (GetFunctionArn c i).1.

(** The payload of an integration extension fails to be written back to
    JSON or to be decoded: either step of [parseIntegrationSettings]. *)
Definition parseFails (c : Collaborators) (integrationData : JSON) : Prop :=
  (∃ e, json_Marshal c (VJSON integrationData) = Err e) ∨
  (∃ data e, json_Marshal c (VJSON integrationData) = Ok data ∧
             json_Unmarshal_ApiGatewayIntegration c data = Err e).

(** The payload of an any-method extension fails to be written back to
    JSON or to be decoded into an [ApiGatewayAnyMethod]. *)
Definition anyMethodFails (c : Collaborators) (anyMethod : JSON) : Prop :=
  (∃ e, json_Marshal c (VJSON anyMethod) = Err e) ∨
  (∃ data e, json_Marshal c (VJSON anyMethod) = Ok data ∧
             json_Unmarshal_ApiGatewayAnyMethod c data = Err e).

(** The spec's definition sources, and the rule "first populated variant in
    the order local URI, object location, inline text, inline structure". *)
Inductive DefinitionSource : Type :=
  | LocalFileURI (uri : string)
  | RemoteObjectLocation (loc : AWSServerlessApi_S3Location)
  | InlineText (text : string)
  | InlineStructure (mapping : gmap string JSON).

Definition populatedSources (api : AWSServerlessApi) : list DefinitionSource :=
  omap id
    [ LocalFileURI <$> (DefinitionUri api ≫= String_);
      RemoteObjectLocation <$> (DefinitionUri api ≫= S3Location);
      match DefinitionBody api with JString text => Some (InlineText text) | _ => None end;
      match DefinitionBody api with JObject mapping => Some (InlineStructure mapping) | _ => None end ].

Definition ResolveDefinitionBytes (c : Collaborators) (source : option DefinitionSource) :
    Outcome bytes :=
  match source with
  | Some (LocalFileURI uri) => getSwaggerFromURI c uri
  | Some (RemoteObjectLocation loc) => getSwaggerFromS3Location c loc
  | Some (InlineText text) => getSwaggerFromString text
  | Some (InlineStructure mapping) => getSwaggerFromMap c mapping
  | None => Fails "no swagger definition found"
  end.

(** A definition body that is neither a string nor a string-keyed mapping. *)
Definition unusableBody (body : JSON) : bool :=
  match body with
  | JString _ | JObject _ => false
  | _ => true
  end.

(** ** A reference environment

    Concrete collaborators for running [Swagger] and [Mounts] on examples:
    a decoder for plain JSON texts, a decoder for the part of a Swagger
    document that [Mounts] reads, a two-file file system and an object
    store without buckets. *)

Module Reference.

(** *** JSON texts

    ASCII texts without escapes in strings and without fractions or
    exponents in numbers; any other text is refused. *)

Definition backslash : Ascii.ascii := Ascii.ascii_of_N 92.

Definition isSpace (a : Ascii.ascii) : bool :=
  let n := Ascii.N_of_ascii a in
  ((n =? 32) || (n =? 9) || (n =? 10) || (n =? 13))%N.

Definition isDigit (a : Ascii.ascii) : bool :=
  let n := Ascii.N_of_ascii a in ((48 <=? n) && (n <=? 57))%N.

Definition digit (a : Ascii.ascii) : Z := (Z.of_N (Ascii.N_of_ascii a) - 48)%Z.

Fixpoint skipSpace (s : string) : string :=
  match s with
  | String a rest => if isSpace a then skipSpace rest else s
  | EmptyString => s
  end.

(** The characters up to the closing quote, and the text after it. *)
Fixpoint readString (s : string) : option (string * string) :=
  match s with
  | EmptyString => None
  | String a rest =>
      let n := Ascii.N_of_ascii a in
      if Ascii.eqb a quote then Some (EmptyString, rest)
      else if (Ascii.eqb a backslash || (n <? 32) || (127 <? n))%N then None
      else
        match readString rest with
        | Some (t, rest') => Some (String a t, rest')
        | None => None
        end
  end.

Fixpoint readDigits (s : string) (acc : Z) : Z * string :=
  match s with
  | String a rest => if isDigit a then readDigits rest (10 * acc + digit a)%Z else (acc, s)
  | EmptyString => (acc, s)
  end.

(** An integer literal: no leading zero, nothing of a fraction or an
    exponent after it, exactly representable as a float64. *)
Definition readInteger (s : string) : option (Z * string) :=
  match s with
  | String a rest =>
      if isDigit a then
        let '(z, rest') := readDigits s 0 in
        let leadingZero :=
          Ascii.eqb a "0"%char &&
          match rest with String b _ => isDigit b | EmptyString => false end in
        let continues :=
          match rest' with
          | String b _ => Ascii.eqb b "."%char || Ascii.eqb b "e"%char || Ascii.eqb b "E"%char
          | EmptyString => false
          end in
        if leadingZero || continues || (2 ^ 53 <? z)%Z then None else Some (z, rest')
      else None
  | EmptyString => None
  end.

Definition readLiteral (literal : string) (j : JSON) (s : string) : option (JSON * string) :=
  if String.prefix literal s
  then Some (j, String.substring (String.length literal)
                  (String.length s - String.length literal) s)
  else None.

Fixpoint readValue (fuel : nat) (s : string) : option (JSON * string) :=
  match fuel with
  | O => None
  | S fuel =>
      match skipSpace s with
      | EmptyString => None
      | String a rest =>
          if Ascii.eqb a "{"%char then
            match skipSpace rest with
            | String b rest' =>
                if Ascii.eqb b "}"%char then Some (JObject ∅, rest')
                else readMembers fuel rest ∅
            | EmptyString => None
            end
          else if Ascii.eqb a "["%char then
            match skipSpace rest with
            | String b rest' =>
                if Ascii.eqb b "]"%char then Some (JArray [], rest')
                else readElements fuel rest []
            | EmptyString => None
            end
          else if Ascii.eqb a quote then
            match readString rest with
            | Some (t, rest') => Some (JString t, rest')
            | None => None
            end
          else if Ascii.eqb a "-"%char then
            match readInteger rest with
            | Some (z, rest') => Some (JNumber (inject_Z (- z)%Z), rest')
            | None => None
            end
          else if isDigit a then
            match readInteger (String a rest) with
            | Some (z, rest') => Some (JNumber (inject_Z z), rest')
            | None => None
            end
          else
            match readLiteral "null" JNull (String a rest) with
            | Some r => Some r
            | None =>
                match readLiteral "true" (JBool true) (String a rest) with
                | Some r => Some r
                | None => readLiteral "false" (JBool false) (String a rest)
                end
            end
      end
  end
with readMembers (fuel : nat) (s : string) (acc : gmap string JSON) : option (JSON * string) :=
  match fuel with
  | O => None
  | S fuel =>
      match skipSpace s with
      | String a rest =>
          if Ascii.eqb a quote then
            match readString rest with
            | Some (k, rest1) =>
                match skipSpace rest1 with
                | String b rest2 =>
                    if Ascii.eqb b ":"%char then
                      match readValue fuel rest2 with
                      | Some (v, rest3) =>
                          match skipSpace rest3 with
                          | String d rest4 =>
                              if Ascii.eqb d ","%char then readMembers fuel rest4 (<[k := v]> acc)
                              else if Ascii.eqb d "}"%char then Some (JObject (<[k := v]> acc), rest4)
                              else None
                          | EmptyString => None
                          end
                      | None => None
                      end
                    else None
                | EmptyString => None
                end
            | None => None
            end
          else None
      | EmptyString => None
      end
  end
with readElements (fuel : nat) (s : string) (acc : list JSON) : option (JSON * string) :=
  match fuel with
  | O => None
  | S fuel =>
      match readValue fuel s with
      | Some (v, rest) =>
          match skipSpace rest with
          | String d rest' =>
              if Ascii.eqb d ","%char then readElements fuel rest' (acc ++ [v])
              else if Ascii.eqb d "]"%char then Some (JArray (acc ++ [v]), rest')
              else None
          | EmptyString => None
          end
      | None => None
      end
  end.

Definition parse (text : string) : Result JSON :=
  match readValue (2 * String.length text + 2) text with
  | Some (j, rest) =>
      match skipSpace rest with
      | EmptyString => Ok j
      | _ => Err "invalid character after top-level value"
      end
  | None => Err "text refused"
  end.

Definition decode (data : bytes) : Result JSON :=
  match data with
  | JsonBytes j => Ok j
  | RawBytes text => parse text
  end.

(** *** Swagger documents

    The part of a document that [Mounts] reads: the ["paths"] member, the
    path items under keys that start with a slash, their operations and
    the vendor members of both.  A document with other members in its
    top-level object, in a path item or in an operation is refused. *)

Definition memberOf (name : string) (m : gmap string JSON) : JSON :=
  match fieldMember name m with
  | Some kv => kv.2
  | None => JNull
  end.

Definition methodNames : list string :=
  ["get"; "put"; "post"; "delete"; "options"; "head"; "patch"].

Definition onlyKeys (allowed : string → bool) (m : gmap string JSON) : bool :=
  bool_decide (map_Forall (λ k _, allowed k = true) m).

Definition Operation_ofJSON (j : JSON) : Result (option Operation) :=
  match j with
  | JNull => Ok None
  | JObject m =>
      if onlyKeys isVendorKey m
      then Ok (Some {| Operation_VendorExtensible := {| Extensions := vendorEntries m |} |})
      else Err "document refused"
  | _ => Err "json: cannot unmarshal into Go value of type spec.OperationProps"
  end.

Definition PathItem_ofJSON (j : JSON) : Result PathItem :=
  let item (m : gmap string JSON) (props : PathItemProps) :=
    {| Ref := JObject ∅;
       PathItem_VendorExtensible := {| Extensions := vendorEntries m |};
       PathItem_PathItemProps := props |} in
  let noOperations :=
    {| Get := None; Put := None; Post := None; Delete := None;
       Options := None; Head := None; Patch := None; Parameters := JNull |} in
  match j with
  | JNull => Ok (item ∅ noOperations)
  | JObject m =>
      if onlyKeys (λ k, isVendorKey k || bool_decide (strings_ToLower k ∈ methodNames)) m then
        get ← Operation_ofJSON (memberOf "get" m);
        put ← Operation_ofJSON (memberOf "put" m);
        post ← Operation_ofJSON (memberOf "post" m);
        delete ← Operation_ofJSON (memberOf "delete" m);
        options ← Operation_ofJSON (memberOf "options" m);
        head ← Operation_ofJSON (memberOf "head" m);
        patch ← Operation_ofJSON (memberOf "patch" m);
        Ok (item m {| Get := get; Put := put; Post := post; Delete := delete;
                      Options := options; Head := head; Patch := patch;
                      Parameters := JNull |})
      else Err "document refused"
  | _ => Err "json: cannot unmarshal into Go value of type map[string]interface {}"
  end.

Fixpoint PathItems_ofJSON (members : list (string * JSON)) : Result (gmap string PathItem) :=
  match members with
  | [] => Ok ∅
  | (k, v) :: rest =>
      items ← PathItems_ofJSON rest;
      if strings_HasPrefix k "/"
      then item ← PathItem_ofJSON v; Ok (<[k := item]> items)
      else Ok items
  end.

Definition Paths_ofJSON (j : JSON) : Result Paths :=
  match j with
  | JObject m =>
      items ← PathItems_ofJSON (map_to_list m);
      Ok {| Paths_Paths := items |}
  | _ => Err "json: cannot unmarshal into Go value of type map[string]json.RawMessage"
  end.

Definition Swagger_ofJSON (j : JSON) : Result spec_Swagger :=
  match j with
  | JNull => Ok {| Swagger_Paths := None |}
  | JObject m =>
      if onlyKeys (λ k, isVendorKey k || String.eqb (strings_ToLower k) "paths") m then
        match memberOf "paths" m with
        | JNull => Ok {| Swagger_Paths := None |}
        | paths => paths ← Paths_ofJSON paths; Ok {| Swagger_Paths := Some paths |}
        end
      else Err "document refused"
  | _ => Err "json: cannot unmarshal into Go value of type spec.SwaggerProps"
  end.

(** *** Integrations

    Modelled from the spec: [ApiGatewayIntegration] and [GetFunctionArn]
    are declared outside api.go.  Here the descriptor holds the ["uri"]
    member of the payload and the handler reference is that string; an
    empty one is the error case. *)

Record Integration : Type := { Uri : string }.

Definition Integration_ofJSON (j : JSON) : Result Integration :=
  match j with
  | JNull => Ok {| Uri := "" |}
  | JObject m =>
      match memberOf "uri" m with
      | JString uri => Ok {| Uri := uri |}
      | JNull => Ok {| Uri := "" |}
      | _ => Err "json: cannot unmarshal into Go struct field ApiGatewayIntegration.uri of type string"
      end
  | _ => Err "json: cannot unmarshal into Go value of type router.ApiGatewayIntegration"
  end.

Definition Integration_GetFunctionArn (integration : Integration) : option string * option error :=
  if String.eqb (Uri integration) ""
  then (None, Some "no handler in the integration")
  else (Some (Uri integration), None).

(** *** Files and the collaborators *)

Definition files : gmap string string :=
  {[ "empty.json" := "{}"; "null.json" := "null" ]}.

Definition ReadFile (uri : string) : Result string :=
  match files !! uri with
  | Some data => Ok data
  | None => Err ("open " +:+ uri +:+ ": no such file or directory")
  end.

Definition Integration_Unmarshal (data : bytes) : Result Integration :=
  j ← decode data; Integration_ofJSON j.

Definition Swagger_Unmarshal (data : bytes) : Result spec_Swagger :=
  j ← decode data; Swagger_ofJSON j.

Definition collaborators : Collaborators := {|
  ApiGatewayIntegration := Integration;
  LambdaFunctionArn := string;
  GetFunctionArn := Integration_GetFunctionArn;
  json_Marshal_error := λ _, None;
  json_Unmarshal := parse;
  json_Unmarshal_ApiGatewayIntegration := Integration_Unmarshal;
  Swagger_UnmarshalJSON := Swagger_Unmarshal;
  ioutil_ReadFile := ReadFile;
  session_NewSession := Ok ();
  s3_GetObject := λ _ _ _, Err "NoSuchBucket: The specified bucket does not exist";
  rangeOrder := λ m : gmap string PathItem, map_to_list m;
  rangeOrder_Permutation := λ m : gmap string PathItem, Permutation_refl (map_to_list m);
  json_Marshal_nil := eq_refl;
  json_Unmarshal_null := ex_intro _ {| Uri := "" |} eq_refl
|}.

End Reference.

(** ** Example resources *)

Module Examples.
Import Reference.

Definition integration (uri : string) : JSON := JObject {[ "uri" := JString uri ]}.

Definition routed (uri : string) : JSON :=
  JObject {[ apiGatewayIntegrationExtension := integration uri ]}.

Definition inlineStructure (paths : gmap string JSON) : AWSServerlessApi :=
  {| DefinitionUri := None; DefinitionBody := JObject {[ "paths" := JObject paths ]} |}.

(** The decoded document of a resource, when there is one. *)
Definition documentOf (api : AWSServerlessApi) : spec_Swagger :=
  match Swagger collaborators api with
  | Returns jsonDefinition =>
      match Swagger_UnmarshalJSON collaborators jsonDefinition with
      | Ok swagger => swagger
      | Err _ => {| Swagger_Paths := None |}
      end
  | _ => {| Swagger_Paths := None |}
  end.

Definition noPathItem : PathItem :=
  {| Ref := JNull;
     PathItem_VendorExtensible := {| Extensions := ∅ |};
     PathItem_PathItemProps :=
       {| Get := None; Put := None; Post := None; Delete := None;
          Options := None; Head := None; Patch := None; Parameters := JNull |} |}.

Definition itemOf (api : AWSServerlessApi) (path : string) : PathItem :=
  default noPathItem (pathItemAt (documentOf api) path).

Definition mountsOf (api : AWSServerlessApi) : list (ServerlessRouterMount string) :=
  match Mounts collaborators api with
  | Returns mounts => mounts
  | _ => []
  end.

(** [/users] routes GET to one handler and every other method to a
    catch-all. *)
Definition usersApi : AWSServerlessApi :=
  inlineStructure
    {[ "/users" :=
         JObject {[ "get" := routed "fn-list-users";
                    apiGatewayAnyMethodExtension := routed "fn-catch-all" ]} ]}.

(** [/a] routes GET to a handler, has a POST integration that is a string
    and a well-formed any-method; the any-method payload of [/b] is a
    string. *)
Definition brokenAnyMethodApi : AWSServerlessApi :=
  inlineStructure
    {[ "/a" :=
         JObject {[ "get" := routed "fn-a";
                    "post" := JObject {[ apiGatewayIntegrationExtension := JString "oops" ]};
                    apiGatewayAnyMethodExtension := routed "fn-catch-all" ]};
       "/b" := JObject {[ apiGatewayAnyMethodExtension := JString "oops" ]} ]}.

(** The integration settings inside the any-method payload are a string. *)
Definition brokenSettingsApi : AWSServerlessApi :=
  inlineStructure
    {[ "/a" :=
         JObject {[ apiGatewayAnyMethodExtension :=
                      JObject {[ apiGatewayIntegrationExtension := JString "oops" ]} ]} ]}.

(** The GET operation has the integration member, with value [null]. *)
Definition nullIntegrationApi : AWSServerlessApi :=
  inlineStructure
    {[ "/a" := JObject {[ "get" := JObject {[ apiGatewayIntegrationExtension := JNull ]} ]} ]}.

(** The GET operation has no integration; the path has an any-method. *)
Definition unroutedGetApi : AWSServerlessApi :=
  inlineStructure
    {[ "/a" := JObject {[ "get" := JObject ∅;
                          apiGatewayAnyMethodExtension := routed "fn-catch-all" ]} ]}.

(** The GET integration is a string. *)
Definition malformedIntegrationApi : AWSServerlessApi :=
  inlineStructure
    {[ "/a" := JObject {[ "get" := JObject {[ apiGatewayIntegrationExtension := JString "oops" ]} ]} ]}.

Definition emptyInlineTextApi : AWSServerlessApi :=
  {| DefinitionUri := None; DefinitionBody := JString "{}" |}.

Definition bothSourcesApi : AWSServerlessApi :=
  {| DefinitionUri := Some {| String_ := Some "null.json"; S3Location := None |};
     DefinitionBody := JString "{}" |}.

Definition noSourceApi : AWSServerlessApi :=
  {| DefinitionUri := None; DefinitionBody := JNull |}.

Definition unusableApi : AWSServerlessApi :=
  {| DefinitionUri := Some {| String_ := None; S3Location := None |};
     DefinitionBody := JBool true |}.

End Examples.

(** ** Vocabulary of the further properties *)

(** The same collaborators, ranging over maps in another order. *)
Definition withRangeOrder (c : Collaborators)
    (order : gmap string PathItem → list (string * PathItem))
    (law : ∀ m, order m ≡ₚ map_to_list m) : Collaborators :=
  {| ApiGatewayIntegration := ApiGatewayIntegration c;
     LambdaFunctionArn := LambdaFunctionArn c;
     GetFunctionArn := GetFunctionArn c;
     json_Marshal_error := json_Marshal_error c;
     json_Unmarshal := json_Unmarshal c;
     json_Unmarshal_ApiGatewayIntegration := json_Unmarshal_ApiGatewayIntegration c;
     Swagger_UnmarshalJSON := Swagger_UnmarshalJSON c;
     ioutil_ReadFile := ioutil_ReadFile c;
     session_NewSession := session_NewSession c;
     s3_GetObject := s3_GetObject c;
     rangeOrder := order;
     rangeOrder_Permutation := law;
     json_Marshal_nil := json_Marshal_nil c;
     json_Unmarshal_null := json_Unmarshal_null c |}.

(** The payloads [json.Unmarshal] accepts for a struct. *)
Definition nullOrObject (j : JSON) : bool :=
  match j with
  | JNull | JObject _ => true
  | _ => false
  end.

(** The any-method payload of every path is one a struct accepts. *)
Definition anyMethodsDecodable (paths : Paths) : Prop :=
  ∀ path (pathItem : PathItem) anyMethod,
    Paths_Paths paths !! path = Some pathItem →
    Extensions pathItem !! apiGatewayAnyMethodExtension = Some anyMethod →
    nullOrObject anyMethod = true.

(** The errors [Mounts] makes itself while it walks the document. *)
Inductive walkError : error → Prop :=
  | operationError method e :
      method ∈ HttpMethods →
      walkError ("Could not parse " +:+ method +:+ " operation: " +:+ e)
  | anyMethodMarshalError :
      walkError "Could not marshal any method object to json"
  | anyMethodUnmarshalError :
      walkError "Could not unmarshal any method josn to object model".

(** The same collaborators with another [ApiGatewayIntegration]: its
    type, its decoder and its [GetFunctionArn]. *)
Definition withIntegration (c : Collaborators) (Integration Arn : Type)
    (getFunctionArn : Integration → option Arn * option error)
    (unmarshal : bytes → Result Integration)
    (law : ∃ integration, unmarshal (JsonBytes JNull) = Ok integration) : Collaborators :=
  {| ApiGatewayIntegration := Integration;
     LambdaFunctionArn := Arn;
     GetFunctionArn := getFunctionArn;
     json_Marshal_error := json_Marshal_error c;
     json_Unmarshal := json_Unmarshal c;
     json_Unmarshal_ApiGatewayIntegration := unmarshal;
     Swagger_UnmarshalJSON := Swagger_UnmarshalJSON c;
     ioutil_ReadFile := ioutil_ReadFile c;
     session_NewSession := session_NewSession c;
     s3_GetObject := s3_GetObject c;
     rangeOrder := rangeOrder c;
     rangeOrder_Permutation := rangeOrder_Permutation c;
     json_Marshal_nil := json_Marshal_nil c;
     json_Unmarshal_null := law |}.

(** A mount without its handler, and a resolution without its handlers. *)
Definition routeOf {Arn : Type} (mount : ServerlessRouterMount Arn) : string * string * string :=
  (Name mount, Path mount, Method mount).

Definition routesOf {Arn : Type} (resolution : Outcome (list (ServerlessRouterMount Arn))) :
    Outcome (list (string * string * string)) :=
  match resolution with
  | Returns mounts => Returns (routeOf <$> mounts)
  | Fails e => Fails e
  | Panics msg => Panics msg
  end.

(** ** Further example resources *)

Module Variants.
Import Reference Examples.

(** A document whose ["paths"] member is the empty object. *)
Definition emptyPathsApi : AWSServerlessApi := inlineStructure ∅.

(** The GET integration of [/a] is a string; the any-method of [/a] is
    well formed. *)
Definition shadowedApi : AWSServerlessApi :=
  inlineStructure
    {[ "/a" :=
         JObject {[ "get" := JObject {[ apiGatewayIntegrationExtension := JString "oops" ]};
                    apiGatewayAnyMethodExtension := routed "fn-catch-all" ]} ]}.

(** The GET integration of [/a] is null; the any-method of [/a] is well
    formed. *)
Definition nullWithAnyMethodApi : AWSServerlessApi :=
  inlineStructure
    {[ "/a" :=
         JObject {[ "get" := JObject {[ apiGatewayIntegrationExtension := JNull ]};
                    apiGatewayAnyMethodExtension := routed "fn-catch-all" ]} ]}.

(** [/users] as in [usersApi], beside a second path. *)
Definition twoPathsApi : AWSServerlessApi :=
  inlineStructure
    {[ "/users" :=
         JObject {[ "get" := routed "fn-list-users";
                    apiGatewayAnyMethodExtension := routed "fn-catch-all" ]};
       "/orders" := JObject {[ "post" := routed "fn-new-order" ]} ]}.

(** A definition URI of a file that does not exist, beside a usable
    location and a usable inline text. *)
Definition unreadableUriApi : AWSServerlessApi :=
  {| DefinitionUri :=
       Some {| String_ := Some "missing.json";
               S3Location := Some {| Bucket := "bucket"; Key := "key"; Version := 1 |} |};
     DefinitionBody := JString "{}" |}.

(** A definition in the object store, beside a usable inline text. *)
Definition objectStoreApi : AWSServerlessApi :=
  {| DefinitionUri :=
       Some {| String_ := None;
               S3Location := Some {| Bucket := "bucket"; Key := "key"; Version := 1 |} |};
     DefinitionBody := JString "{}" |}.

(** An inline text that is not JSON. *)
Definition notJsonApi : AWSServerlessApi :=
  {| DefinitionUri := None; DefinitionBody := JString "paths:" |}.

(** The reference collaborators, ranging over maps backwards. *)
Definition backwards : Collaborators :=
  withRangeOrder collaborators (λ m, reverse (map_to_list m))
    (λ m, reverse_Permutation (map_to_list m)).

(** The reference collaborators with integrations nobody can read. *)
Definition unreadable : Collaborators :=
  withIntegration collaborators unit unit
    (λ _, (None, Some "no function in the integration"))
    (λ data, match data with
             | JsonBytes JNull => Ok ()
             | _ => Err "json: cannot unmarshal"
             end)
    (ex_intro _ () eq_refl).

(** The reference collaborators without credentials: no session. *)
Definition offline : Collaborators := {|
  ApiGatewayIntegration := Integration;
  LambdaFunctionArn := string;
  GetFunctionArn := Integration_GetFunctionArn;
  json_Marshal_error := λ _, None;
  json_Unmarshal := parse;
  json_Unmarshal_ApiGatewayIntegration := Integration_Unmarshal;
  Swagger_UnmarshalJSON := Swagger_Unmarshal;
  ioutil_ReadFile := ReadFile;
  session_NewSession := Err "NoCredentialProviders: no valid providers in chain";
  s3_GetObject := λ _ _ _, Err "NoSuchBucket: The specified bucket does not exist";
  rangeOrder := λ m : gmap string PathItem, map_to_list m;
  rangeOrder_Permutation := λ m : gmap string PathItem, Permutation_refl (map_to_list m);
  json_Marshal_nil := eq_refl;
  json_Unmarshal_null := ex_intro _ {| Uri := "" |} eq_refl
|}.

End Variants.

(** * Properties *)

(** ** Lists *)

Section Lists.
Context {A B : Type}.

Lemma filter_ext_elem_of (P Q : A → Prop) `{!∀ x, Decision (P x), !∀ x, Decision (Q x)}
    (l : list A) :
  (∀ x, x ∈ l → P x ↔ Q x) → filter P l = filter Q l.
Proof.
  induction l as [|x l IH]; intros Hext; [done|].
  rewrite !filter_cons, IH by (intros y Hy; apply Hext; by right).
  pose proof (Hext x (list_elem_of_here _ _)) as Hx.
  destruct (decide (P x)), (decide (Q x)); tauto || done.
Qed.

Lemma filter_complement_length (P : A → Prop) `{!∀ x, Decision (P x)} (l : list A) :
  length (filter (λ x, ¬ P x) l) = length l - length (filter P l).
Proof.
  pose proof (Permutation_length (filter_app_complement P l)) as Hlen.
  rewrite length_app in Hlen. lia.
Qed.

Lemma filter_all (P : A → Prop) `{!∀ x, Decision (P x)} (l : list A) :
  (∀ x, x ∈ l → P x) → filter P l = l.
Proof.
  induction l as [|x l IH]; intros HP; [done|].
  rewrite filter_cons, decide_True by (apply HP; by left).
  f_equal. apply IH. intros y Hy. apply HP. by right.
Qed.

Lemma filter_none (P : A → Prop) `{!∀ x, Decision (P x)} (l : list A) :
  (∀ x, x ∈ l → ¬ P x) → filter P l = [].
Proof.
  induction l as [|x l IH]; intros HP; [done|].
  rewrite filter_cons, decide_False by (apply HP; by left).
  apply IH. intros y Hy. apply HP. by right.
Qed.

(** A function whose images of a list are pairwise distinct is injective
    on the list. *)
Lemma NoDup_fmap_inj_on (f : A → B) (l : list A) x y :
  NoDup (f <$> l) → x ∈ l → y ∈ l → f x = f y → x = y.
Proof.
  induction l as [|z l IH]; [by intros _ ?%not_elem_of_nil|].
  rewrite fmap_cons, NoDup_cons. intros [Hz Hl] Hx Hy Hxy.
  apply elem_of_cons in Hx as [->|Hx], Hy as [->|Hy]; [done| | |by apply IH].
  - exfalso. apply Hz. rewrite Hxy. by apply list_elem_of_fmap_2.
  - exfalso. apply Hz. rewrite <- Hxy. by apply list_elem_of_fmap_2.
Qed.

Lemma NoDup_fmap_filter (f : A → B) (P : A → Prop) `{!∀ x, Decision (P x)} (l : list A) :
  NoDup (f <$> l) → NoDup (f <$> filter P l).
Proof.
  rewrite <- (filter_app_complement P l) at 1. rewrite fmap_app.
  by intros (? & _ & _)%NoDup_app.
Qed.

End Lists.

(** Among the images of a list with pairwise distinct keys, one image has
    the key of a given element. *)
Lemma filter_fmap_key {A B C : Type} `{!EqDecision C} (key : A → C) (h : A → B) (keyOf : B → C)
    (l : list A) x :
  (∀ y, keyOf (h y) = key y) → NoDup (key <$> l) → x ∈ l →
  filter (λ b, keyOf b = key x) (h <$> l) = [h x].
Proof.
  intros Hkey. induction l as [|y l IH]; [by intros _ ?%not_elem_of_nil|].
  rewrite !fmap_cons, NoDup_cons, filter_cons, Hkey.
  intros [Hy Hl] [->|Hx]%elem_of_cons.
  - rewrite decide_True by done. f_equal. apply filter_none.
    intros b (z & -> & Hz)%list_elem_of_fmap Hb. apply Hy.
    rewrite Hkey in Hb. rewrite <- Hb. by apply list_elem_of_fmap_2.
  - rewrite decide_False; [by apply IH|].
    intros Hyx. apply Hy. rewrite Hyx. by apply list_elem_of_fmap_2.
Qed.

(** ** The loops in closed form *)

Section Loops.
Context (c : Collaborators).

Lemma mountMethod_seen path pathItem method mounts mappedMethods :
  mountMethod c path pathItem method (mounts, mappedMethods) =
  match integrationSeen c pathItem method with
  | Err e => Err e
  | Ok _ => Ok (mounts ++ explicitMount c path pathItem method,
                markMapped c pathItem mappedMethods method)
  end.
Proof.
  unfold mountMethod, explicitMount, markMapped, integrationSeen.
  destruct (JSONLookup pathItem _) as [v|]; [|by rewrite app_nil_r].
  destruct (json_Marshal c v) as [b|]; [|done].
  destruct (Extensions (Operation_UnmarshalJSON c b) !! _) as [[]|];
    by rewrite ?app_nil_r.
Qed.

Lemma forRange_mountMethod path pathItem methods mounts mappedMethods :
  forRange (mountMethod c path pathItem) methods (mounts, mappedMethods) =
  match methodsError c pathItem methods with
  | Some e => Err e
  | None => Ok (mounts ++ explicitMounts c path pathItem methods,
                foldl (markMapped c pathItem) mappedMethods methods)
  end.
Proof.
  revert mounts mappedMethods.
  induction methods as [|method rest IH]; intros mounts mappedMethods;
    cbn [forRange methodsError foldl].
  - unfold explicitMounts. change ([] ≫= _) with (@nil (ServerlessRouterMount (LambdaFunctionArn c))).
    by rewrite app_nil_r.
  - rewrite mountMethod_seen.
    destruct (integrationSeen c pathItem method) as [o|e] eqn:Hseen; [|done].
    rewrite IH. destruct (methodsError c pathItem rest); [done|].
    unfold explicitMounts. by rewrite bind_cons, app_assoc.
Qed.

Lemma fold_left_mountAnyMethod path anyMethodObject mappedMethods methods mounts :
  fold_left (mountAnyMethod c path anyMethodObject mappedMethods) methods mounts =
  mounts ++ (anyMount c path anyMethodObject
               <$> filter (λ method, mappedMethods !! method = None) methods).
Proof.
  revert mounts. induction methods as [|method rest IH]; intros mounts;
    cbn [fold_left].
  - by rewrite app_nil_r.
  - rewrite IH. unfold mountAnyMethod. rewrite filter_cons.
    destruct (mappedMethods !! method) eqn:Hm.
    + by rewrite decide_False by done.
    + rewrite decide_True by done. by rewrite fmap_cons, <- app_assoc.
Qed.

(** [json.Marshal] either fails or writes the text of the value. *)
Lemma json_Marshal_Ok v data :
  json_Marshal c v = Ok data → data = JsonBytes (encode v).
Proof. unfold json_Marshal. destruct (json_Marshal_error c v); congruence. Qed.

(** One iteration of the outer loop: when it goes through, it appends the
    explicit mounts and then the wildcard mounts of the path. *)
Lemma mountPath_Ok entry mounts mounts' :
  mountPath c entry mounts = Ok mounts' →
  mounts' = mounts ++ pathMounts c entry.
Proof.
  destruct entry as [path pathItem]. unfold mountPath, pathMounts, wildcardMounts.
  rewrite forRange_mountMethod. cbn [fst snd]. fold (mappedAfter c pathItem).
  destruct (methodsError c pathItem HttpMethods); [done|].
  destruct (Extensions pathItem !! apiGatewayAnyMethodExtension) as [anyMethod|].
  - destruct (json_Marshal c (VJSON anyMethod)) as [data|] eqn:Hdata; [|done].
    apply json_Marshal_Ok in Hdata as ->. cbn [encode].
    destruct (json_Unmarshal_ApiGatewayAnyMethod c (JsonBytes anyMethod)); [|done].
    rewrite fold_left_mountAnyMethod, <- app_assoc. congruence.
  - rewrite app_nil_r. congruence.
Qed.

(** Whether an iteration goes through does not depend on the mounts
    collected so far. *)
Lemma mountPath_from_nil entry mounts mounts' :
  mountPath c entry mounts = Ok mounts' →
  mountPath c entry [] = Ok (pathMounts c entry).
Proof.
  intros Hrun. destruct (mountPath c entry []) as [l|e] eqn:Hnil.
  - apply mountPath_Ok in Hnil. by rewrite Hnil.
  - exfalso. destruct entry as [path pathItem]. unfold mountPath in *.
    rewrite forRange_mountMethod in *.
    destruct (methodsError c pathItem HttpMethods); [done|].
    destruct (Extensions pathItem !! apiGatewayAnyMethodExtension); [|done].
    destruct (json_Marshal c _); [|done].
    destruct (json_Unmarshal_ApiGatewayAnyMethod c _); done.
Qed.

Lemma forRange_mountPath entries mounts mounts' :
  forRange (mountPath c) entries mounts = Ok mounts' →
  mounts' = mounts ++ (entries ≫= pathMounts c) ∧
  Forall (λ entry, mountPath c entry [] = Ok (pathMounts c entry)) entries.
Proof.
  revert mounts. induction entries as [|entry rest IH]; intros mounts; cbn [forRange].
  - intros [= <-]. change ([] ≫= _) with (@nil (ServerlessRouterMount (LambdaFunctionArn c))).
    by rewrite app_nil_r.
  - destruct (mountPath c entry mounts) as [l|] eqn:Hentry; [|done].
    intros [-> Hrest]%IH. split.
    + apply mountPath_Ok in Hentry as ->. by rewrite bind_cons, app_assoc.
    + constructor; [by eapply mountPath_from_nil|done].
Qed.

End Loops.

(** ** Mount descriptors and the two passes *)

Section PassLemmas.
Context (c : Collaborators).

Lemma createMount_fields path verb integration :
  Name (createMount c path verb integration) = path ∧
  Path (createMount c path verb integration) = path ∧
  Method (createMount c path verb integration) = verb ∧
  IntegrationArn (createMount c path verb integration) = handlerOf c integration.
Proof.
  unfold createMount, handlerOf. destruct integration as [i|]; [|done].
  cbn. by destruct (GetFunctionArn c i).
Qed.

Lemma elem_of_explicitMounts mount path pathItem methods :
  mount ∈ explicitMounts c path pathItem methods ↔
  ∃ method integration,
    method ∈ methods ∧
    integrationSeen c pathItem method = Ok (Some integration) ∧
    mount = createMount c path (strings_ToLower method)
              (parseIntegrationSettings c integration).
Proof.
  unfold explicitMounts. rewrite list_elem_of_bind. split.
  - intros (method & Hin & Hmethod). unfold explicitMount in Hin.
    destruct (integrationSeen c pathItem method) as [[integration|]|] eqn:Hseen;
      try by apply not_elem_of_nil in Hin.
    apply list_elem_of_singleton in Hin. eauto.
  - intros (method & integration & Hmethod & Hseen & ->).
    exists method. split; [|done]. unfold explicitMount. rewrite Hseen.
    by apply list_elem_of_singleton.
Qed.

Lemma explicitMounts_Method path pathItem methods :
  Method <$> explicitMounts c path pathItem methods =
  strings_ToLower <$> filter (λ method, isMapped c pathItem method = true) methods.
Proof.
  unfold explicitMounts. induction methods as [|method rest IH]; [done|].
  rewrite bind_cons, fmap_app, IH, filter_cons.
  unfold explicitMount, isMapped.
  destruct (integrationSeen c pathItem method) as [[integration|]|]; cbn [fmap list_fmap app].
  - rewrite decide_True by done.
    by destruct (createMount_fields path (strings_ToLower method)
                   (parseIntegrationSettings c integration)) as (_ & _ & -> & _).
  - by rewrite decide_False by done.
  - by rewrite decide_False by done.
Qed.

Lemma explicitMounts_Path mount path pathItem methods :
  mount ∈ explicitMounts c path pathItem methods → Path mount = path.
Proof.
  intros (method & integration & _ & _ & ->)%elem_of_explicitMounts.
  apply createMount_fields.
Qed.

(** [mappedMethods] holds exactly the methods mounted so far. *)
Lemma markMapped_lookup pathItem methods mappedMethods method :
  foldl (markMapped c pathItem) mappedMethods methods !! method =
  if bool_decide (method ∈ methods) && isMapped c pathItem method
  then Some true else mappedMethods !! method.
Proof.
  revert mappedMethods. induction methods as [|m rest IH]; intros mappedMethods;
    cbn [foldl].
  - by rewrite bool_decide_eq_false_2 by apply not_elem_of_nil.
  - rewrite IH. unfold markMapped, isMapped.
    destruct (decide (method = m)) as [->|Hne].
    + rewrite (bool_decide_eq_true_2 (m ∈ m :: rest)) by apply list_elem_of_here.
      destruct (integrationSeen c pathItem m) as [[integration|]|];
        rewrite ?andb_false_r; cbn [andb]; [|done..].
      rewrite lookup_insert_eq. by destruct (bool_decide _).
    + assert (bool_decide (method ∈ m :: rest) = bool_decide (method ∈ rest)) as ->.
      { apply bool_decide_ext. rewrite elem_of_cons.
        split; [intros [?|?]; [congruence|done] | by right]. }
      destruct (bool_decide (method ∈ rest) && _); [done|].
      destruct (integrationSeen c pathItem m) as [[integration|]|]; [|done..].
      by rewrite lookup_insert_ne.
Qed.

Lemma mappedAfter_lookup pathItem method :
  mappedAfter c pathItem !! method =
  if bool_decide (method ∈ HttpMethods) && isMapped c pathItem method
  then Some true else None.
Proof. unfold mappedAfter. by rewrite markMapped_lookup, lookup_empty. Qed.

Lemma mappedAfter_filter pathItem :
  filter (λ method, mappedAfter c pathItem !! method = None) HttpMethods =
  filter (λ method, ¬ isMapped c pathItem method = true) HttpMethods.
Proof.
  apply filter_ext_elem_of. intros method Hin. rewrite mappedAfter_lookup.
  rewrite bool_decide_eq_true_2 by done. cbn [andb].
  destruct (isMapped c pathItem method); split; intros; congruence.
Qed.

End PassLemmas.

(** ** The supported methods *)

Lemma HttpMethods_length : length HttpMethods = 7.
Proof. reflexivity. Qed.

Lemma HttpMethods_NoDup : NoDup HttpMethods.
Proof. apply (bool_decide_unpack _). by vm_compute. Qed.

Lemma HttpMethods_lower_NoDup : NoDup (strings_ToLower <$> HttpMethods).
Proof. apply (bool_decide_unpack _). by vm_compute. Qed.

Lemma HttpMethods_cases (P : string → Prop) :
  P "GET" → P "POST" → P "PUT" → P "DELETE" → P "PATCH" → P "HEAD" → P "OPTIONS" →
  ∀ method, method ∈ HttpMethods → P method.
Proof.
  intros ??????? method Hin. unfold HttpMethods in Hin.
  repeat (apply elem_of_cons in Hin as [->|Hin]; [done|]).
  by apply not_elem_of_nil in Hin.
Qed.

(** ** What the first pass sees in a decoded document *)

Section Decoded.
Context (c : Collaborators).

Lemma vendorEntries_lookup m k :
  isVendorKey k = true → vendorEntries m !! k = m !! k.
Proof.
  intros Hk. unfold vendorEntries. destruct (m !! k) as [v|] eqn:Hm.
  - by apply map_lookup_filter_Some_2.
  - apply map_lookup_filter_None_2. by left.
Qed.

(** For a supported method, [JSONLookup] on a decoded path item gives the
    operation pointer of that method. *)
Lemma JSONLookup_method (pathItem : PathItem) method :
  decodedExtensions pathItem → method ∈ HttpMethods →
  JSONLookup pathItem (strings_ToLower method) =
  Ok (VOperation (methodOperation pathItem method)).
Proof.
  intros Hdecoded Hin. revert method Hin.
  apply (HttpMethods_cases (λ method,
    JSONLookup pathItem (strings_ToLower method) =
    Ok (VOperation (methodOperation pathItem method))));
    unfold JSONLookup;
    match goal with
    | |- context [Extensions _ !! ?k] =>
        let k' := eval vm_compute in k in
        change k with k'; destruct (Extensions pathItem !! k') as [ex|] eqn:Hex
    end;
    solve [ apply Hdecoded in Hex; by vm_compute in Hex | reflexivity ].
Qed.

(** Writing an operation and reading it back keeps its integration. *)
Lemma Operation_roundtrip (o : option Operation) :
  Extensions (Operation_UnmarshalJSON c (JsonBytes (encode (VOperation o))))
    !! apiGatewayIntegrationExtension =
  o ≫= λ operation : Operation, Extensions operation !! apiGatewayIntegrationExtension.
Proof.
  destruct o as [operation|]; cbn; [|done].
  by rewrite !vendorEntries_lookup.
Qed.

Lemma integrationSeen_decoded (pathItem : PathItem) method :
  decodedExtensions pathItem → method ∈ HttpMethods →
  integrationSeen c pathItem method =
  match json_Marshal_error c (VOperation (methodOperation pathItem method)) with
  | Some e => Err ("Could not parse " +:+ method +:+ " operation: " +:+ e)
  | None =>
      match methodOperation pathItem method
            ≫= λ operation : Operation, Extensions operation !! apiGatewayIntegrationExtension with
      | None | Some JNull => Ok None
      | Some integration => Ok (Some integration)
      end
  end.
Proof.
  intros Hdecoded Hin. unfold integrationSeen.
  rewrite JSONLookup_method by done. unfold json_Marshal.
  destruct (json_Marshal_error c _); [done|].
  by rewrite Operation_roundtrip.
Qed.

End Decoded.

(** ** From the resource to the mounts of one path *)

Section Resolution.
Context (c : Collaborators).

Lemma rangeOrder_elem_of (m : gmap string PathItem) path pathItem :
  (path, pathItem) ∈ rangeOrder c m ↔ m !! path = Some pathItem.
Proof. rewrite (rangeOrder_Permutation c m). apply elem_of_map_to_list. Qed.

Lemma rangeOrder_NoDup (m : gmap string PathItem) : NoDup ((rangeOrder c m).*1).
Proof. rewrite (rangeOrder_Permutation c m). apply NoDup_fst_map_to_list. Qed.

Lemma wildcardMounts_Path mount path pathItem :
  mount ∈ wildcardMounts c path pathItem → Path mount = path.
Proof.
  unfold wildcardMounts.
  destruct (Extensions pathItem !! _) as [anyMethod|]; [|by intros ?%not_elem_of_nil].
  destruct (json_Unmarshal_ApiGatewayAnyMethod c _) as [anyMethodObject|];
    [|by intros ?%not_elem_of_nil].
  intros (method & -> & _)%list_elem_of_fmap. apply createMount_fields.
Qed.

Lemma pathMounts_Path mount entry :
  mount ∈ pathMounts c entry → Path mount = entry.1.
Proof.
  unfold pathMounts. rewrite elem_of_app.
  intros [?|?]; eauto using explicitMounts_Path, wildcardMounts_Path.
Qed.

(** The mounts of a path are those the iteration for that path appended. *)
Lemma filter_Path_pathMounts entries path pathItem :
  NoDup (entries.*1) → (path, pathItem) ∈ entries →
  filter (λ mount, Path mount = path) (entries ≫= pathMounts c) =
  pathMounts c (path, pathItem).
Proof.
  induction entries as [|entry rest IH]; [by intros _ ?%not_elem_of_nil|].
  rewrite fmap_cons, NoDup_cons, elem_of_cons, bind_cons, filter_app.
  intros [Hfresh Hrest] [<-|Hin].
  - rewrite filter_all by (intros mount Hmount; apply (pathMounts_Path _ _ Hmount)).
    rewrite filter_none; [by rewrite app_nil_r|].
    intros mount (other & Hmount & Hother)%list_elem_of_bind Hpath.
    apply Hfresh. apply pathMounts_Path in Hmount. rewrite Hpath in Hmount.
    cbn [fst]. rewrite Hmount. by apply (list_elem_of_fmap_2 fst).
  - rewrite filter_none; [by rewrite app_nil_l, IH|].
    intros mount Hmount%pathMounts_Path Hpath. apply Hfresh.
    rewrite <- Hmount, Hpath. by apply (list_elem_of_fmap_2 fst _ (path, pathItem)).
Qed.

Lemma Mounts_parsed api swagger :
  parsesTo c api swagger →
  Mounts c api =
  match Swagger_Paths swagger with
  | None => Panics "runtime error: invalid memory address or nil pointer dereference"
  | Some paths => outcome (forRange (mountPath c) (rangeOrder c (Paths_Paths paths)) [])
  end.
Proof. intros (jsonDefinition & Hbytes & Hdoc). unfold Mounts. by rewrite Hbytes, Hdoc. Qed.

(** A successful resolution, seen from one path of the document. *)
Lemma Mounts_path api swagger path pathItem mounts :
  parsesTo c api swagger →
  pathItemAt swagger path = Some pathItem →
  Mounts c api = Returns mounts →
  filter (λ mount, Path mount = path) mounts = pathMounts c (path, pathItem) ∧
  mountPath c (path, pathItem) [] = Ok (pathMounts c (path, pathItem)).
Proof.
  intros Hparsed Hitem. rewrite (Mounts_parsed _ _ Hparsed).
  unfold pathItemAt in Hitem.
  destruct (Swagger_Paths swagger) as [paths|]; [cbn in Hitem|done].
  destruct (forRange _ _ _) as [l|] eqn:Hloop; [|done]. intros [= ->].
  apply forRange_mountPath in Hloop as [-> Hall]. rewrite app_nil_l.
  apply rangeOrder_elem_of in Hitem. split.
  - apply filter_Path_pathMounts; [apply rangeOrder_NoDup|done].
  - by apply (proj1 (Forall_forall _ _) Hall).
Qed.

End Resolution.

(** ** What a successful iteration tells *)

Section Iteration.
Context (c : Collaborators).

Lemma methodsError_None pathItem methods method :
  methodsError c pathItem methods = None → method ∈ methods →
  ∃ seen, integrationSeen c pathItem method = Ok seen.
Proof.
  induction methods as [|m rest IH]; [by intros _ ?%not_elem_of_nil|].
  cbn [methodsError]. destruct (integrationSeen c pathItem m) as [seen|] eqn:Hm; [|done].
  intros Hrest [->|Hin]%elem_of_cons; eauto.
Qed.

Lemma mountPath_Ok_inv path (pathItem : PathItem) mounts :
  mountPath c (path, pathItem) [] = Ok mounts →
  methodsError c pathItem HttpMethods = None ∧
  ∀ anyMethod,
    Extensions pathItem !! apiGatewayAnyMethodExtension = Some anyMethod →
    json_Marshal c (VJSON anyMethod) = Ok (JsonBytes anyMethod) ∧
    ∃ anyMethodObject,
      json_Unmarshal_ApiGatewayAnyMethod c (JsonBytes anyMethod) = Ok anyMethodObject.
Proof.
  unfold mountPath. rewrite forRange_mountMethod.
  destruct (methodsError c pathItem HttpMethods); [done|]. intros Hany.
  split; [done|]. intros anyMethod Hext. rewrite Hext in Hany.
  destruct (json_Marshal c (VJSON anyMethod)) as [data|] eqn:Hdata; [|done].
  pose proof (json_Marshal_Ok _ _ _ Hdata) as ->. cbn [encode] in *.
  split; [done|].
  destruct (json_Unmarshal_ApiGatewayAnyMethod c (JsonBytes anyMethod)); [eauto|done].
Qed.

(** The first pass on its own, when it goes through. *)
Lemma first_pass pathItem path :
  methodsError c pathItem HttpMethods = None →
  forRange (mountMethod c path pathItem) HttpMethods ([], ∅) =
  Ok (explicitMounts c path pathItem HttpMethods, mappedAfter c pathItem).
Proof. intros Hok. by rewrite forRange_mountMethod, Hok, app_nil_l. Qed.

Lemma wildcardMounts_decoded path (pathItem : PathItem) anyMethod anyMethodObject :
  Extensions pathItem !! apiGatewayAnyMethodExtension = Some anyMethod →
  json_Unmarshal_ApiGatewayAnyMethod c (JsonBytes anyMethod) = Ok anyMethodObject →
  wildcardMounts c path pathItem =
  anyMount c path anyMethodObject
    <$> filter (λ method, mappedAfter c pathItem !! method = None) HttpMethods.
Proof. intros Hext Hobject. unfold wildcardMounts. by rewrite Hext, Hobject. Qed.

Lemma anyMount_Method path anyMethodObject (methods : list string) :
  Method <$> (anyMount c path anyMethodObject <$> methods) = strings_ToLower <$> methods.
Proof.
  rewrite <- list_fmap_compose. apply list_fmap_ext. intros _ method _.
  apply createMount_fields.
Qed.

Lemma explicitMounts_length path pathItem methods :
  length (explicitMounts c path pathItem methods) =
  length (filter (λ method, isMapped c pathItem method = true) methods).
Proof.
  rewrite <- (length_fmap Method), explicitMounts_Method. apply length_fmap.
Qed.

Lemma markMapped_isMapped pathItem mappedMethods method :
  markMapped c pathItem mappedMethods method =
  if isMapped c pathItem method then <[method := true]> mappedMethods else mappedMethods.
Proof.
  unfold markMapped, isMapped.
  by destruct (integrationSeen c pathItem method) as [[integration|]|].
Qed.

Lemma markMapped_size pathItem methods (mappedMethods : gmap string bool) :
  NoDup methods →
  (∀ method, method ∈ methods → mappedMethods !! method = None) →
  size (foldl (markMapped c pathItem) mappedMethods methods) =
  size mappedMethods + length (filter (λ method, isMapped c pathItem method = true) methods).
Proof.
  revert mappedMethods.
  induction methods as [|m rest IH]; intros mappedMethods; cbn [foldl].
  - intros _ _. rewrite filter_nil. cbn. lia.
  - rewrite NoDup_cons. intros [Hm Hrest] Hfresh. rewrite filter_cons.
    rewrite markMapped_isMapped.
    destruct (isMapped c pathItem m) eqn:Hmapped.
    + rewrite decide_True by done. rewrite IH; [|done|].
      * rewrite map_size_insert_None by (apply Hfresh; by left). cbn [length]. lia.
      * intros method Hin. rewrite lookup_insert_ne by (intros ->; done).
        apply Hfresh. by right.
    + rewrite decide_False by done.
      apply IH; [done|]. intros method Hin. apply Hfresh. by right.
Qed.

Lemma mappedAfter_size pathItem :
  size (mappedAfter c pathItem) =
  length (filter (λ method, isMapped c pathItem method = true) HttpMethods).
Proof.
  unfold mappedAfter. rewrite markMapped_size, map_size_empty; [done| |done].
  apply HttpMethods_NoDup.
Qed.

Lemma Mounts_Returns api mounts :
  Mounts c api = Returns mounts → ∃ swagger, parsesTo c api swagger.
Proof.
  unfold Mounts, parsesTo.
  destruct (Swagger c api) as [jsonDefinition| |]; [|done..].
  destruct (Swagger_UnmarshalJSON c jsonDefinition) as [swagger|] eqn:Hdoc; [|done].
  intros _. by exists swagger, jsonDefinition.
Qed.

End Iteration.

(** ** Resolving the definition *)

Section Sources.
Context (c : Collaborators).

Lemma Swagger_resolves api :
  Swagger c api = ResolveDefinitionBytes c (head (populatedSources api)).
Proof.
  destruct api as [[[[uri|] [loc|]]|] body]; try reflexivity; by destruct body.
Qed.

Lemma Mounts_Swagger_Fails api e :
  Swagger c api = Fails e → Mounts c api = Fails e.
Proof. intros Hfails. unfold Mounts. by rewrite Hfails. Qed.

End Sources.

(** C8. [Swagger] checks the four definition sources in the fixed order
    local URI, object-storage location, inline text, inline structured
    mapping and resolves the first one that is populated; in particular,
    when a definition URI (in either form) and an inline text are both
    populated, the URI is the source that is read. *)
Theorem Swagger_first_populated_source (c : Collaborators) :
  (∀ api, Swagger c api = ResolveDefinitionBytes c (head (populatedSources api))) ∧
  (∀ uri loc text,
     Swagger c {| DefinitionUri := Some {| String_ := Some uri; S3Location := loc |};
                  DefinitionBody := JString text |}
     = getSwaggerFromURI c uri) ∧
  (∀ loc text,
     Swagger c {| DefinitionUri := Some {| String_ := None; S3Location := Some loc |};
                  DefinitionBody := JString text |}
     = getSwaggerFromS3Location c loc).
Proof. split; [apply Swagger_resolves|]. by split. Qed.

Example Swagger_both_sources :
  Swagger Reference.collaborators Examples.bothSourcesApi = Returns (RawBytes "null").
Proof. reflexivity. Qed.

(** C9. When no definition source is populated, [Swagger] fails with the
    error "no swagger definition found", and [Mounts] returns that error
    and no mounts. *)
Theorem no_definition_found (c : Collaborators) (api : AWSServerlessApi) :
  populatedSources api = [] →
  Swagger c api = Fails "no swagger definition found" ∧
  Mounts c api = Fails "no swagger definition found".
Proof.
  intros Hnone.
  assert (Swagger c api = Fails "no swagger definition found") as Hfails.
  { by rewrite Swagger_resolves, Hnone. }
  split; [done|]. by apply Mounts_Swagger_Fails.
Qed.

Lemma no_definition_found_witness :
  Swagger Reference.collaborators Examples.noSourceApi = Fails "no swagger definition found" ∧
  Mounts Reference.collaborators Examples.noSourceApi = Fails "no swagger definition found".
Proof. apply (no_definition_found Reference.collaborators Examples.noSourceApi). reflexivity. Defined.

(** C10. A definition body that is populated but is neither a string nor
    a string-keyed mapping, and a definition-URI object with neither its
    string nor its location set, count as absent: with nothing else
    populated, [Swagger] falls through every check and fails with "no
    swagger definition found", exactly as for a resource with no source
    at all, and so does [Mounts]. *)
Theorem unusable_source_counts_as_absent (c : Collaborators) (api : AWSServerlessApi) :
  DefinitionUri api = None ∨
  DefinitionUri api = Some {| String_ := None; S3Location := None |} →
  unusableBody (DefinitionBody api) = true →
  Swagger c api = Swagger c {| DefinitionUri := None; DefinitionBody := JNull |} ∧
  Swagger c api = Fails "no swagger definition found" ∧
  Mounts c api = Fails "no swagger definition found".
Proof.
  intros Huri Hbody.
  assert (Swagger c api = Fails "no swagger definition found") as Hfails.
  { unfold Swagger. destruct Huri as [-> | ->]; cbn; by destruct (DefinitionBody api). }
  split; [by rewrite Hfails|]. split; [done|]. by apply Mounts_Swagger_Fails.
Qed.

Lemma unusable_source_counts_as_absent_witness :
  Swagger Reference.collaborators Examples.unusableApi =
    Swagger Reference.collaborators {| DefinitionUri := None; DefinitionBody := JNull |} ∧
  Swagger Reference.collaborators Examples.unusableApi = Fails "no swagger definition found" ∧
  Mounts Reference.collaborators Examples.unusableApi = Fails "no swagger definition found".
Proof.
  apply (unusable_source_counts_as_absent Reference.collaborators Examples.unusableApi).
  - by right.
  - reflexivity.
Defined.

(** C3. The resource whose definition is the inline text [{}]: the decoded
    document has no paths, [swagger.Paths] is a nil pointer, and ranging
    over [swagger.Paths.Paths] panics; [Mounts] neither returns an empty
    mount list nor an error. *)
Theorem Mounts_empty_document_panics (c : Collaborators) (api : AWSServerlessApi) :
  DefinitionUri api = None →
  DefinitionBody api = JString "{}" →
  Swagger_UnmarshalJSON c (RawBytes "{}") = Ok {| Swagger_Paths := None |} →
  Mounts c api = Panics "runtime error: invalid memory address or nil pointer dereference".
Proof.
  intros Huri Hbody Hdoc. unfold Mounts, Swagger. rewrite Huri, Hbody. cbn.
  by rewrite Hdoc.
Qed.

Lemma Mounts_empty_document_panics_witness :
  Mounts Reference.collaborators Examples.emptyInlineTextApi =
  Panics "runtime error: invalid memory address or nil pointer dereference".
Proof.
  apply (Mounts_empty_document_panics Reference.collaborators Examples.emptyInlineTextApi);
    reflexivity.
Defined.

(** ** One mount per path and method *)

Section Distinct.
Context (c : Collaborators).

Lemma pathMounts_Method_NoDup entry : NoDup (Method <$> pathMounts c entry).
Proof.
  destruct entry as [path pathItem].
  assert (NoDup (strings_ToLower
                   <$> (filter (λ method, isMapped c pathItem method = true) HttpMethods
                        ++ filter (λ method, ¬ isMapped c pathItem method = true) HttpMethods)))
    as Hall.
  { rewrite filter_app_complement. apply HttpMethods_lower_NoDup. }
  unfold pathMounts. cbn [fst snd]. rewrite fmap_app, explicitMounts_Method.
  unfold wildcardMounts.
  destruct (Extensions pathItem !! apiGatewayAnyMethodExtension) as [anyMethod|];
    [destruct (json_Unmarshal_ApiGatewayAnyMethod c (JsonBytes anyMethod))
       as [anyMethodObject|] |].
  - by rewrite anyMount_Method, mappedAfter_filter, <- fmap_app.
  - rewrite fmap_app in Hall. apply NoDup_app in Hall as (Hexplicit & _ & _).
    by rewrite fmap_nil, app_nil_r.
  - rewrite fmap_app in Hall. apply NoDup_app in Hall as (Hexplicit & _ & _).
    by rewrite fmap_nil, app_nil_r.
Qed.

Lemma pathMounts_NoDup_pairs (entries : list (string * PathItem)) :
  NoDup (entries.*1) →
  NoDup ((λ mount, (Path mount, Method mount)) <$> (entries ≫= pathMounts c)).
Proof.
  intros Hkeys.
  assert (∀ entry1 entry2 mount,
            entry1 ∈ entries → entry2 ∈ entries →
            mount ∈ pathMounts c entry1 → Path mount = entry2.1 → entry1 = entry2)
    as Hblock.
  { intros entry1 entry2 mount Hin1 Hin2 Hmount Hpath.
    apply (NoDup_fmap_inj_on fst entries); [done..|].
    by rewrite <- (pathMounts_Path c _ _ Hmount). }
  apply NoDup_fmap_2_strong.
  - intros mount1 mount2 (entry1 & Hmount1 & Hin1)%list_elem_of_bind
      (entry2 & Hmount2 & Hin2)%list_elem_of_bind [= Hpath Hmethod].
    assert (entry1 = entry2) as ->.
    { apply (Hblock _ _ mount1); [done..|].
      rewrite Hpath. by apply pathMounts_Path. }
    by apply (NoDup_fmap_inj_on Method (pathMounts c entry2));
      [apply pathMounts_Method_NoDup|..].
  - apply NoDup_bind.
    + intros entry1 entry2 mount Hin1 Hin2 Hmount1 Hmount2.
      apply (Hblock _ _ mount); [done..|]. by apply pathMounts_Path.
    + intros entry _. apply (NoDup_fmap_1 Method), pathMounts_Method_NoDup.
    + by apply (NoDup_fmap_1 fst).
Qed.

End Distinct.

(** C6. No (path, method) pair appears more than once in the mount list
    that one call of [Mounts] returns. *)
Theorem Mounts_pairs_distinct (c : Collaborators) (api : AWSServerlessApi)
    (mounts : list (ServerlessRouterMount (LambdaFunctionArn c))) :
  Mounts c api = Returns mounts →
  NoDup ((λ mount, (Path mount, Method mount)) <$> mounts).
Proof.
  intros Hmounts. destruct (Mounts_Returns _ _ _ Hmounts) as [swagger Hparsed].
  rewrite (Mounts_parsed _ _ _ Hparsed) in Hmounts.
  destruct (Swagger_Paths swagger) as [paths|]; [|done].
  destruct (forRange _ _ _) as [l|] eqn:Hloop; [|done]. injection Hmounts as ->.
  apply forRange_mountPath in Hloop as [-> _]. rewrite app_nil_l.
  apply pathMounts_NoDup_pairs, rangeOrder_NoDup.
Qed.

Lemma Mounts_pairs_distinct_witness :
  NoDup ((λ mount, (Path mount, Method mount)) <$> Examples.mountsOf Examples.usersApi).
Proof.
  apply (Mounts_pairs_distinct Reference.collaborators Examples.usersApi).
  reflexivity.
Defined.

(** The scenario of the spec: GET goes to its own handler, the six other
    methods to the catch-all. *)
Example Mounts_users :
  Mounts Reference.collaborators Examples.usersApi =
  Returns
    [ {| Name := "/users"; Path := "/users"; Method := "get";
         IntegrationArn := Some "fn-list-users" |};
      {| Name := "/users"; Path := "/users"; Method := "post";
         IntegrationArn := Some "fn-catch-all" |};
      {| Name := "/users"; Path := "/users"; Method := "put";
         IntegrationArn := Some "fn-catch-all" |};
      {| Name := "/users"; Path := "/users"; Method := "delete";
         IntegrationArn := Some "fn-catch-all" |};
      {| Name := "/users"; Path := "/users"; Method := "patch";
         IntegrationArn := Some "fn-catch-all" |};
      {| Name := "/users"; Path := "/users"; Method := "head";
         IntegrationArn := Some "fn-catch-all" |};
      {| Name := "/users"; Path := "/users"; Method := "options";
         IntegrationArn := Some "fn-catch-all" |} ].
Proof. reflexivity. Qed.

(** ** The any-method pass *)

(** C1, as the code has it.  In a resolution that returns a mount list,
    for a path that carries the any-method extension and has N methods
    mapped by the per-method pass, the mounts of that path are the N
    explicit ones followed by exactly 7 - N wildcard mounts, one for each
    supported method that is not mapped and none for a mapped one. *)
Theorem any_method_fills_unmapped_methods (c : Collaborators) (api : AWSServerlessApi)
    (swagger : spec_Swagger) (path : string) (pathItem : PathItem) (anyMethod : JSON)
    (mounts : list (ServerlessRouterMount (LambdaFunctionArn c))) :
  parsesTo c api swagger →
  pathItemAt swagger path = Some pathItem →
  Extensions pathItem !! apiGatewayAnyMethodExtension = Some anyMethod →
  Mounts c api = Returns mounts →
  ∃ explicit mappedMethods wildcard,
    forRange (mountMethod c path pathItem) HttpMethods ([], ∅) = Ok (explicit, mappedMethods) ∧
    filter (λ mount, Path mount = path) mounts = explicit ++ wildcard ∧
    length explicit = size mappedMethods ∧
    (size mappedMethods ≤ 7)%nat ∧
    length wildcard = (7 - size mappedMethods)%nat ∧
    Method <$> wildcard =
      strings_ToLower <$> filter (λ method, mappedMethods !! method = None) HttpMethods ∧
    ∀ method, is_Some (mappedMethods !! method) →
              strings_ToLower method ∉ Method <$> wildcard.
Proof.
  intros Hparsed Hitem Hany Hmounts.
  destruct (Mounts_path _ _ _ _ _ _ Hparsed Hitem Hmounts) as [Hfilter Hrun].
  destruct (mountPath_Ok_inv _ _ _ _ Hrun) as [Hmethods Hdecode].
  destruct (Hdecode _ Hany) as (_ & anyMethodObject & Hobject).
  exists (explicitMounts c path pathItem HttpMethods), (mappedAfter c pathItem),
         (wildcardMounts c path pathItem).
  pose proof (mappedAfter_size c pathItem) as Hsize.
  pose proof (length_filter (λ method, isMapped c pathItem method = true) HttpMethods) as Hle.
  rewrite HttpMethods_length in Hle.
  assert (Method <$> wildcardMounts c path pathItem =
          strings_ToLower
            <$> filter (λ method, mappedAfter c pathItem !! method = None) HttpMethods)
    as Hwild.
  { by rewrite (wildcardMounts_decoded _ _ _ _ _ Hany Hobject), anyMount_Method. }
  split; [by apply first_pass|]. split; [done|].
  split; [by rewrite explicitMounts_length|]. split; [lia|]. split; [|split; [done|]].
  - rewrite <- (length_fmap Method), Hwild, length_fmap, mappedAfter_filter.
    rewrite filter_complement_length, HttpMethods_length. lia.
  - intros method Hmapped. rewrite Hwild.
    intros (other & Hlower & [Hother Hin]%list_elem_of_filter)%list_elem_of_fmap.
    assert (method ∈ HttpMethods) as Hmethod.
    { rewrite mappedAfter_lookup in Hmapped.
      destruct (bool_decide (method ∈ HttpMethods)) eqn:Hdec;
        [by apply bool_decide_eq_true in Hdec|by destruct Hmapped]. }
    assert (method = other) as ->.
    { by apply (NoDup_fmap_inj_on strings_ToLower HttpMethods);
        [apply HttpMethods_lower_NoDup|..]. }
    rewrite Hother in Hmapped. by destruct Hmapped.
Qed.

Lemma any_method_fills_unmapped_methods_witness :
  ∃ explicit mappedMethods wildcard,
    forRange (mountMethod Reference.collaborators "/users"
                (Examples.itemOf Examples.usersApi "/users")) HttpMethods ([], ∅)
      = Ok (explicit, mappedMethods) ∧
    filter (λ mount, Path mount = "/users") (Examples.mountsOf Examples.usersApi)
      = explicit ++ wildcard ∧
    length explicit = size mappedMethods ∧
    (size mappedMethods ≤ 7)%nat ∧
    length wildcard = (7 - size mappedMethods)%nat ∧
    Method <$> wildcard =
      strings_ToLower <$> filter (λ method, mappedMethods !! method = None) HttpMethods ∧
    ∀ method, is_Some (mappedMethods !! method) →
              strings_ToLower method ∉ Method <$> wildcard.
Proof.
  apply (any_method_fills_unmapped_methods Reference.collaborators Examples.usersApi
           (Examples.documentOf Examples.usersApi) "/users"
           (Examples.itemOf Examples.usersApi "/users")
           (Examples.routed "fn-catch-all")
           (Examples.mountsOf Examples.usersApi)).
  - eexists. split; reflexivity.
  - reflexivity.
  - reflexivity.
  - reflexivity.
Defined.

(** C1 as stated fails: [/a] carries a well-formed any-method extension
    and has two methods mapped, so five wildcard mounts are claimed; the
    any-method payload of another path, [/b], does not decode, and
    [Mounts] returns an error and no mount at all. *)
Lemma any_method_unfilled_after_error :
  parsesTo Reference.collaborators Examples.brokenAnyMethodApi
    (Examples.documentOf Examples.brokenAnyMethodApi) ∧
  pathItemAt (Examples.documentOf Examples.brokenAnyMethodApi) "/a"
    = Some (Examples.itemOf Examples.brokenAnyMethodApi "/a") ∧
  Extensions (Examples.itemOf Examples.brokenAnyMethodApi "/a")
    !! apiGatewayAnyMethodExtension = Some (Examples.routed "fn-catch-all") ∧
  forRange (mountMethod Reference.collaborators "/a"
              (Examples.itemOf Examples.brokenAnyMethodApi "/a")) HttpMethods ([], ∅)
    = Ok ([ {| Name := "/a"; Path := "/a"; Method := "get"; IntegrationArn := Some "fn-a" |};
            {| Name := "/a"; Path := "/a"; Method := "post"; IntegrationArn := None |} ],
          {[ "GET" := true; "POST" := true ]}) ∧
  Mounts Reference.collaborators Examples.brokenAnyMethodApi
    = Fails "Could not unmarshal any method josn to object model".
Proof.
  split; [eexists; split; reflexivity|]. repeat split; reflexivity.
Qed.

(** ** The per-method pass *)

Section Explicit.
Context (c : Collaborators).

(** In a successful resolution, the first pass sees the integration that a
    decoded path item carries for a supported method, unless it is null. *)
Lemma integrationSeen_carried (pathItem : PathItem) path method operation integration mounts :
  decodedExtensions pathItem → method ∈ HttpMethods →
  methodOperation pathItem method = Some operation →
  Extensions operation !! apiGatewayIntegrationExtension = integration →
  mountPath c (path, pathItem) [] = Ok mounts →
  integrationSeen c pathItem method =
  Ok match integration with
     | None | Some JNull => None
     | Some payload => Some payload
     end.
Proof.
  intros Hdecoded Hin Hoperation Hcarried Hrun.
  destruct (mountPath_Ok_inv _ _ _ _ Hrun) as [Herror _].
  destruct (methodsError_None _ _ _ _ Herror Hin) as [seen Hseen].
  rewrite (integrationSeen_decoded _ _ _ Hdecoded Hin) in Hseen |- *.
  destruct (json_Marshal_error c _); [done|].
  rewrite Hoperation. cbn. rewrite Hcarried. by destruct integration as [[]|].
Qed.

(** The methods the first pass maps are those whose operation carries an
    integration that is not null. *)
Lemma isMapped_carried (pathItem : PathItem) path method mounts :
  decodedExtensions pathItem → method ∈ HttpMethods →
  mountPath c (path, pathItem) [] = Ok mounts →
  isMapped c pathItem method = true ↔
  ∃ (operation : Operation) integration,
    methodOperation pathItem method = Some operation ∧
    Extensions operation !! apiGatewayIntegrationExtension = Some integration ∧
    integration ≠ JNull.
Proof.
  intros Hdecoded Hin Hrun. unfold isMapped.
  destruct (methodOperation pathItem method) as [operation|] eqn:Hoperation.
  - rewrite (integrationSeen_carried _ _ _ _ _ _ Hdecoded Hin Hoperation eq_refl Hrun).
    destruct (Extensions operation !! apiGatewayIntegrationExtension)
      as [integration|] eqn:Hcarried.
    + split.
      * intros Hmapped. exists operation, integration.
        split; [done|]. split; [done|]. by intros ->.
      * intros (? & ? & [= <-] & Hsame & Hnonnull).
        rewrite Hcarried in Hsame. injection Hsame as <-. by destruct integration.
    + split; [done|]. intros (? & ? & [= <-] & Hsame & _). congruence.
  - destruct (mountPath_Ok_inv _ _ _ _ Hrun) as [Herror _].
    destruct (methodsError_None _ _ _ _ Herror Hin) as [seen Hseen].
    rewrite (integrationSeen_decoded _ _ _ Hdecoded Hin), Hoperation in Hseen |- *.
    destruct (json_Marshal_error c _); [done|]. cbn.
    split; [done|]. by intros (? & ? & ? & _).
Qed.

(** ... and the mount made from it is in the list returned. *)
Lemma explicit_mount_elem_of api swagger path (pathItem : PathItem) method operation
    integration mounts :
  parsesTo c api swagger →
  pathItemAt swagger path = Some pathItem →
  decodedExtensions pathItem →
  method ∈ HttpMethods →
  methodOperation pathItem method = Some operation →
  Extensions operation !! apiGatewayIntegrationExtension = Some integration →
  integration ≠ JNull →
  Mounts c api = Returns mounts →
  createMount c path (strings_ToLower method) (parseIntegrationSettings c integration)
    ∈ mounts.
Proof.
  intros Hparsed Hitem Hdecoded Hin Hoperation Hcarried Hnonnull Hmounts.
  destruct (Mounts_path _ _ _ _ _ _ Hparsed Hitem Hmounts) as [Hfilter Hrun].
  pose proof (integrationSeen_carried _ _ _ _ _ _ Hdecoded Hin Hoperation Hcarried Hrun)
    as Hseen.
  assert (integrationSeen c pathItem method = Ok (Some integration)) as Hseen'.
  { rewrite Hseen. by destruct integration. }
  apply (list_elem_of_filter (λ mount, Path mount = path)). rewrite Hfilter.
  unfold pathMounts. apply elem_of_app. left.
  apply elem_of_explicitMounts. by exists method, integration.
Qed.

End Explicit.

(** C2, as the code has it.  In a resolution that returns a mount list,
    for every path and every supported method whose operation carries a
    routing-integration extension that is not null, the list holds a mount
    whose name and path are that path, whose method is the method in lower
    case and whose handler reference is the one resolved from the
    extension of that operation. *)
Theorem explicit_operation_is_mounted (c : Collaborators) (api : AWSServerlessApi)
    (swagger : spec_Swagger) (path : string) (pathItem : PathItem) (method : string)
    (operation : Operation) (integration : JSON)
    (mounts : list (ServerlessRouterMount (LambdaFunctionArn c))) :
  parsesTo c api swagger →
  pathItemAt swagger path = Some pathItem →
  decodedExtensions pathItem →
  method ∈ HttpMethods →
  methodOperation pathItem method = Some operation →
  Extensions operation !! apiGatewayIntegrationExtension = Some integration →
  integration ≠ JNull →
  Mounts c api = Returns mounts →
  ∃ mount,
    mount ∈ mounts ∧
    Name mount = path ∧
    Path mount = path ∧
    Method mount = strings_ToLower method ∧
    IntegrationArn mount = handlerOf c (parseIntegrationSettings c integration).
Proof.
  intros Hparsed Hitem Hdecoded Hin Hoperation Hcarried Hnonnull Hmounts.
  exists (createMount c path (strings_ToLower method) (parseIntegrationSettings c integration)).
  split; [by eapply explicit_mount_elem_of|apply createMount_fields].
Qed.

Lemma explicit_operation_is_mounted_witness :
  ∃ mount : ServerlessRouterMount string,
    mount ∈ Examples.mountsOf Examples.usersApi ∧
    Name mount = "/users" ∧
    Path mount = "/users" ∧
    Method mount = "get" ∧
    IntegrationArn mount = Some "fn-list-users".
Proof.
  apply (explicit_operation_is_mounted Reference.collaborators Examples.usersApi
           (Examples.documentOf Examples.usersApi) "/users"
           (Examples.itemOf Examples.usersApi "/users") "GET"
           {| Operation_VendorExtensible :=
                {| Extensions :=
                     {[ apiGatewayIntegrationExtension := Examples.integration "fn-list-users" ]} |} |}
           (Examples.integration "fn-list-users")
           (Examples.mountsOf Examples.usersApi)).
  - eexists. split; reflexivity.
  - reflexivity.
  - apply (bool_decide_unpack _). by vm_compute.
  - apply (bool_decide_unpack _). by vm_compute.
  - reflexivity.
  - reflexivity.
  - discriminate.
  - reflexivity.
Defined.

(** C2 as stated fails, in two ways.  The GET operation of [/a] carries
    the routing-integration extension with the value null, and the
    resolution returns no mount for it.  The GET operation of [/a] carries
    a well-formed routing-integration extension, the any-method payload
    of [/b] does not decode, and [Mounts] returns an error and no mount. *)
Lemma explicit_operation_not_mounted :
  (parsesTo Reference.collaborators Examples.nullIntegrationApi
     (Examples.documentOf Examples.nullIntegrationApi) ∧
   pathItemAt (Examples.documentOf Examples.nullIntegrationApi) "/a"
     = Some (Examples.itemOf Examples.nullIntegrationApi "/a") ∧
   (∃ operation : Operation,
      methodOperation (Examples.itemOf Examples.nullIntegrationApi "/a") "GET" = Some operation ∧
      Extensions operation !! apiGatewayIntegrationExtension = Some JNull) ∧
   Mounts Reference.collaborators Examples.nullIntegrationApi = Returns []) ∧
  (parsesTo Reference.collaborators Examples.brokenAnyMethodApi
     (Examples.documentOf Examples.brokenAnyMethodApi) ∧
   pathItemAt (Examples.documentOf Examples.brokenAnyMethodApi) "/a"
     = Some (Examples.itemOf Examples.brokenAnyMethodApi "/a") ∧
   (∃ operation : Operation,
      methodOperation (Examples.itemOf Examples.brokenAnyMethodApi "/a") "GET" = Some operation ∧
      Extensions operation !! apiGatewayIntegrationExtension = Some (Examples.integration "fn-a")) ∧
   Mounts Reference.collaborators Examples.brokenAnyMethodApi
     = Fails "Could not unmarshal any method josn to object model").
Proof.
  split.
  - split; [eexists; split; reflexivity|]. split; [reflexivity|].
    split; [eexists; split; reflexivity|]. reflexivity.
  - split; [eexists; split; reflexivity|]. split; [reflexivity|].
    split; [eexists; split; reflexivity|]. reflexivity.
Qed.

(** ** Operations without an integration *)

Section Unrouted.
Context (c : Collaborators).

Lemma explicitMounts_unmapped path pathItem method :
  method ∈ HttpMethods → isMapped c pathItem method = false →
  filter (λ mount, Method mount = strings_ToLower method)
    (explicitMounts c path pathItem HttpMethods) = [].
Proof.
  intros Hin Hunmapped. apply filter_none.
  intros mount (other & integration & Hother & Hseen & ->)%elem_of_explicitMounts Hmethod.
  destruct (createMount_fields c path (strings_ToLower other)
              (parseIntegrationSettings c integration)) as (_ & _ & Hverb & _).
  rewrite Hverb in Hmethod.
  apply (NoDup_fmap_inj_on strings_ToLower HttpMethods) in Hmethod as ->;
    [|apply HttpMethods_lower_NoDup|done..].
  unfold isMapped in Hunmapped. by rewrite Hseen in Hunmapped.
Qed.

Lemma wildcardMounts_unmapped path (pathItem : PathItem) anyMethod anyMethodObject method :
  Extensions pathItem !! apiGatewayAnyMethodExtension = Some anyMethod →
  json_Unmarshal_ApiGatewayAnyMethod c (JsonBytes anyMethod) = Ok anyMethodObject →
  method ∈ HttpMethods → isMapped c pathItem method = false →
  filter (λ mount, Method mount = strings_ToLower method) (wildcardMounts c path pathItem)
  = [anyMount c path anyMethodObject method].
Proof.
  intros Hany Hobject Hin Hunmapped.
  rewrite (wildcardMounts_decoded _ _ _ _ _ Hany Hobject).
  apply (filter_fmap_key strings_ToLower).
  - intros other. apply createMount_fields.
  - apply NoDup_fmap_filter, HttpMethods_lower_NoDup.
  - apply list_elem_of_filter. split; [|done].
    rewrite mappedAfter_lookup, Hunmapped. by rewrite andb_false_r.
Qed.

Lemma filter_pair api swagger path pathItem verb mounts :
  parsesTo c api swagger →
  pathItemAt swagger path = Some pathItem →
  Mounts c api = Returns mounts →
  filter (λ mount, Path mount = path ∧ Method mount = verb) mounts =
  filter (λ mount, Method mount = verb) (explicitMounts c path pathItem HttpMethods)
  ++ filter (λ mount, Method mount = verb) (wildcardMounts c path pathItem).
Proof.
  intros Hparsed Hitem Hmounts.
  destruct (Mounts_path _ _ _ _ _ _ Hparsed Hitem Hmounts) as [Hfilter _].
  rewrite <- filter_app.
  change (explicitMounts c path pathItem HttpMethods ++ wildcardMounts c path pathItem)
    with (pathMounts c (path, pathItem)).
  rewrite <- Hfilter.
  rewrite list_filter_filter. apply list_filter_iff. intros mount. tauto.
Qed.

End Unrouted.

(** C5, as the code has it.  In a resolution that returns a mount list,
    an operation that does not carry the routing-integration extension
    produces no mount of its own: when its path has no any-method
    extension the list holds no mount for that path and method, and when
    the path has one, the only mount for that path and method is the
    wildcard mount of the any-method extension. *)
Theorem operation_without_integration (c : Collaborators) (api : AWSServerlessApi)
    (swagger : spec_Swagger) (path : string) (pathItem : PathItem) (method : string)
    (operation : Operation)
    (mounts : list (ServerlessRouterMount (LambdaFunctionArn c))) :
  parsesTo c api swagger →
  pathItemAt swagger path = Some pathItem →
  decodedExtensions pathItem →
  method ∈ HttpMethods →
  methodOperation pathItem method = Some operation →
  Extensions operation !! apiGatewayIntegrationExtension = None →
  Mounts c api = Returns mounts →
  (Extensions pathItem !! apiGatewayAnyMethodExtension = None →
   filter (λ mount, Path mount = path ∧ Method mount = strings_ToLower method) mounts = []) ∧
  (∀ anyMethod,
     Extensions pathItem !! apiGatewayAnyMethodExtension = Some anyMethod →
     ∃ anyMethodObject,
       json_Unmarshal_ApiGatewayAnyMethod c (JsonBytes anyMethod) = Ok anyMethodObject ∧
       filter (λ mount, Path mount = path ∧ Method mount = strings_ToLower method) mounts
       = [ {| Name := path; Path := path; Method := strings_ToLower method;
              IntegrationArn :=
                handlerOf c (parseIntegrationSettings c (IntegrationSettings anyMethodObject)) |} ]).
Proof.
  intros Hparsed Hitem Hdecoded Hin Hoperation Hcarried Hmounts.
  destruct (Mounts_path _ _ _ _ _ _ Hparsed Hitem Hmounts) as [_ Hrun].
  pose proof (integrationSeen_carried _ _ _ _ _ _ _ Hdecoded Hin Hoperation Hcarried Hrun)
    as Hseen.
  assert (isMapped c pathItem method = false) as Hunmapped.
  { unfold isMapped. by rewrite Hseen. }
  rewrite (filter_pair _ _ _ _ _ _ _ Hparsed Hitem Hmounts).
  rewrite explicitMounts_unmapped, app_nil_l by done.
  split.
  - intros Hnone. unfold wildcardMounts. by rewrite Hnone.
  - intros anyMethod Hany.
    destruct (mountPath_Ok_inv _ _ _ _ Hrun) as [_ Hdecode].
    destruct (Hdecode _ Hany) as (_ & anyMethodObject & Hobject).
    exists anyMethodObject. split; [done|].
    rewrite (wildcardMounts_unmapped _ _ _ _ _ _ Hany Hobject Hin Hunmapped).
    unfold anyMount.
    destruct (createMount_fields c path (strings_ToLower method)
                (parseIntegrationSettings c (IntegrationSettings anyMethodObject)))
      as (Hname & Hpath & Hverb & Harn).
    destruct (createMount c path _ _). cbn in *. by subst.
Qed.

Lemma operation_without_integration_witness :
  (Extensions (Examples.itemOf Examples.unroutedGetApi "/a") !! apiGatewayAnyMethodExtension
     = None →
   filter (λ mount : ServerlessRouterMount string, Path mount = "/a" ∧ Method mount = "get")
     (Examples.mountsOf Examples.unroutedGetApi) = []) ∧
  (∀ anyMethod,
     Extensions (Examples.itemOf Examples.unroutedGetApi "/a") !! apiGatewayAnyMethodExtension
       = Some anyMethod →
     ∃ anyMethodObject,
       json_Unmarshal_ApiGatewayAnyMethod Reference.collaborators (JsonBytes anyMethod)
         = Ok anyMethodObject ∧
       filter (λ mount, Path mount = "/a" ∧ Method mount = "get")
         (Examples.mountsOf Examples.unroutedGetApi)
       = [ {| Name := "/a"; Path := "/a"; Method := "get";
              IntegrationArn :=
                handlerOf Reference.collaborators
                  (parseIntegrationSettings Reference.collaborators
                     (IntegrationSettings anyMethodObject)) |} ]).
Proof.
  apply (operation_without_integration Reference.collaborators Examples.unroutedGetApi
           (Examples.documentOf Examples.unroutedGetApi) "/a"
           (Examples.itemOf Examples.unroutedGetApi "/a") "GET"
           {| Operation_VendorExtensible := {| Extensions := ∅ |} |}
           (Examples.mountsOf Examples.unroutedGetApi)).
  - eexists. split; reflexivity.
  - reflexivity.
  - apply (bool_decide_unpack _). by vm_compute.
  - apply (bool_decide_unpack _). by vm_compute.
  - reflexivity.
  - reflexivity.
  - reflexivity.
Defined.

(** C5 as stated fails: the GET operation of [/a] carries no
    routing-integration extension, and the list returned holds a mount
    for [/a] and GET, the one the any-method extension fills in. *)
Lemma unrouted_operation_gets_wildcard_mount :
  parsesTo Reference.collaborators Examples.unroutedGetApi
    (Examples.documentOf Examples.unroutedGetApi) ∧
  pathItemAt (Examples.documentOf Examples.unroutedGetApi) "/a"
    = Some (Examples.itemOf Examples.unroutedGetApi "/a") ∧
  (∃ operation : Operation,
     methodOperation (Examples.itemOf Examples.unroutedGetApi "/a") "GET" = Some operation ∧
     Extensions operation !! apiGatewayIntegrationExtension = None) ∧
  ∃ mounts,
    Mounts Reference.collaborators Examples.unroutedGetApi = Returns mounts ∧
    {| Name := "/a"; Path := "/a"; Method := "get"; IntegrationArn := Some "fn-catch-all" |}
      ∈ mounts.
Proof.
  split; [eexists; split; reflexivity|]. split; [reflexivity|].
  split; [eexists; split; reflexivity|].
  eexists. split; [reflexivity|]. apply list_elem_of_here.
Qed.

(** ** Payloads that do not parse *)

Section Unparsable.
Context (c : Collaborators).

(** A mount made without an integration. *)
Lemma createMount_None path verb :
  createMount c path verb None =
  {| Name := path; Path := path; Method := verb; IntegrationArn := None |}.
Proof. reflexivity. Qed.

Lemma parseFails_None integrationData :
  parseFails c integrationData → parseIntegrationSettings c integrationData = None.
Proof.
  unfold parseIntegrationSettings.
  intros [[e ->]|(data & e & -> & ->)]; done.
Qed.

(** The nil payload is written and read back without error. *)
Lemma parseFails_nonnull integrationData :
  parseFails c integrationData → integrationData ≠ JNull.
Proof.
  intros Hfails ->. unfold parseFails, json_Marshal in Hfails.
  rewrite (json_Marshal_nil c) in Hfails. cbn [encode] in Hfails.
  destruct (json_Unmarshal_null c) as [integration Hnull].
  destruct Hfails as [[e ?]|(data & e & [= <-] & ?)]; congruence.
Qed.

End Unparsable.

(** C7, as the code has it.  For an operation of a supported method whose
    integration payload fails to be written back or decoded,
    [parseIntegrationSettings] returns nil and raises no error, and every
    mount list that [Mounts] returns holds a mount for that path and
    method with an empty handler reference. *)
Theorem unparsable_integration_is_mounted (c : Collaborators) (api : AWSServerlessApi)
    (swagger : spec_Swagger) (path : string) (pathItem : PathItem) (method : string)
    (operation : Operation) (integration : JSON) :
  parsesTo c api swagger →
  pathItemAt swagger path = Some pathItem →
  decodedExtensions pathItem →
  method ∈ HttpMethods →
  methodOperation pathItem method = Some operation →
  Extensions operation !! apiGatewayIntegrationExtension = Some integration →
  parseFails c integration →
  parseIntegrationSettings c integration = None ∧
  ∀ mounts : list (ServerlessRouterMount (LambdaFunctionArn c)),
    Mounts c api = Returns mounts →
    {| Name := path; Path := path; Method := strings_ToLower method; IntegrationArn := None |}
      ∈ mounts.
Proof.
  intros Hparsed Hitem Hdecoded Hin Hoperation Hcarried Hfails.
  pose proof (parseFails_None _ _ Hfails) as Hnil. split; [done|].
  intros mounts Hmounts. rewrite <- (createMount_None c), <- Hnil.
  eapply explicit_mount_elem_of; eauto using parseFails_nonnull.
Qed.

Lemma unparsable_integration_is_mounted_witness :
  parseIntegrationSettings Reference.collaborators (JString "oops") = None ∧
  ∀ mounts : list (ServerlessRouterMount string),
    Mounts Reference.collaborators Examples.malformedIntegrationApi = Returns mounts →
    {| Name := "/a"; Path := "/a"; Method := "get"; IntegrationArn := None |} ∈ mounts.
Proof.
  apply (unparsable_integration_is_mounted Reference.collaborators
           Examples.malformedIntegrationApi
           (Examples.documentOf Examples.malformedIntegrationApi) "/a"
           (Examples.itemOf Examples.malformedIntegrationApi "/a") "GET"
           {| Operation_VendorExtensible :=
                {| Extensions := {[ apiGatewayIntegrationExtension := JString "oops" ]} |} |}
           (JString "oops")).
  - eexists. split; reflexivity.
  - reflexivity.
  - apply (bool_decide_unpack _). by vm_compute.
  - apply (bool_decide_unpack _). by vm_compute.
  - reflexivity.
  - reflexivity.
  - right. eexists _, _. split; reflexivity.
Defined.

Example Mounts_malformed_integration :
  Mounts Reference.collaborators Examples.malformedIntegrationApi =
  Returns [ {| Name := "/a"; Path := "/a"; Method := "get"; IntegrationArn := None |} ].
Proof. reflexivity. Qed.

(** C7 as stated fails: the POST integration of [/a] does not decode and
    [parseIntegrationSettings] returns nil for it, but the any-method
    payload of [/b] does not decode either, [Mounts] returns an error, and
    no mount for [/a] and POST comes out. *)
Lemma unparsable_integration_lost_after_error :
  parsesTo Reference.collaborators Examples.brokenAnyMethodApi
    (Examples.documentOf Examples.brokenAnyMethodApi) ∧
  pathItemAt (Examples.documentOf Examples.brokenAnyMethodApi) "/a"
    = Some (Examples.itemOf Examples.brokenAnyMethodApi "/a") ∧
  (∃ operation : Operation,
     methodOperation (Examples.itemOf Examples.brokenAnyMethodApi "/a") "POST" = Some operation ∧
     Extensions operation !! apiGatewayIntegrationExtension = Some (JString "oops")) ∧
  parseFails Reference.collaborators (JString "oops") ∧
  parseIntegrationSettings Reference.collaborators (JString "oops") = None ∧
  Mounts Reference.collaborators Examples.brokenAnyMethodApi
    = Fails "Could not unmarshal any method josn to object model".
Proof.
  split; [eexists; split; reflexivity|]. split; [reflexivity|].
  split; [eexists; split; reflexivity|].
  split; [right; eexists _, _; split; reflexivity|]. split; reflexivity.
Qed.

(** ** The any-method payload *)

Section AnyMethod.
Context (c : Collaborators).

(** An iteration whose any-method payload cannot be written back or
    decoded does not go through, whatever was collected before. *)
Lemma mountPath_anyMethodFails path (pathItem : PathItem) anyMethod mounts :
  Extensions pathItem !! apiGatewayAnyMethodExtension = Some anyMethod →
  anyMethodFails c anyMethod →
  ∃ e, mountPath c (path, pathItem) mounts = Err e.
Proof.
  intros Hany Hfails.
  destruct (mountPath c (path, pathItem) mounts) as [mounts'|e] eqn:Hrun; [|eauto].
  apply mountPath_from_nil, mountPath_Ok_inv in Hrun as [_ Hdecode].
  destruct (Hdecode _ Hany) as (Hdata & anyMethodObject & Hobject).
  destruct Hfails as [[e ?]|(data & e & ? & ?)]; congruence.
Qed.

Lemma forRange_Err {A S : Type} (body : A → S → Result S) (l : list A) (s : S) x :
  x ∈ l → (∀ s', ∃ e, body x s' = Err e) → ∃ e, forRange body l s = Err e.
Proof.
  intros Hin Hx. revert s. induction l as [|y l IH]; intros s;
    [by apply not_elem_of_nil in Hin|].
  cbn [forRange]. apply elem_of_cons in Hin as [->|Hin].
  - destruct (Hx s) as [e ->]. eauto.
  - destruct (body y s) as [s'|e]; [by apply IH|eauto].
Qed.

End AnyMethod.

(** C4, as the code has it.  For a path with an any-method extension:
    when the payload of the extension cannot be written back to JSON or
    decoded, the whole resolution fails, [Mounts] returns an error and no
    mounts; when the payload decodes and only the integration settings
    inside it fail to parse, nothing is skipped: a list that [Mounts]
    returns holds, for every supported method the first pass did not map,
    a wildcard mount with an empty handler reference. *)
Theorem any_method_payload_failure (c : Collaborators) (api : AWSServerlessApi)
    (swagger : spec_Swagger) (path : string) (pathItem : PathItem) (anyMethod : JSON) :
  parsesTo c api swagger →
  pathItemAt swagger path = Some pathItem →
  Extensions pathItem !! apiGatewayAnyMethodExtension = Some anyMethod →
  (anyMethodFails c anyMethod → ∃ e, Mounts c api = Fails e) ∧
  (∀ anyMethodObject (mounts : list (ServerlessRouterMount (LambdaFunctionArn c))) method,
     json_Unmarshal_ApiGatewayAnyMethod c (JsonBytes anyMethod) = Ok anyMethodObject →
     parseIntegrationSettings c (IntegrationSettings anyMethodObject) = None →
     Mounts c api = Returns mounts →
     method ∈ HttpMethods →
     isMapped c pathItem method = false →
     {| Name := path; Path := path; Method := strings_ToLower method; IntegrationArn := None |}
       ∈ mounts).
Proof.
  intros Hparsed Hitem Hany. split.
  - intros Hfails. rewrite (Mounts_parsed _ _ _ Hparsed).
    unfold pathItemAt in Hitem.
    destruct (Swagger_Paths swagger) as [paths|]; [cbn in Hitem|done].
    apply (rangeOrder_elem_of c) in Hitem.
    destruct (forRange_Err (mountPath c) _ [] _ Hitem) as [e ->]; [|by exists e].
    intros mounts. by eapply mountPath_anyMethodFails.
  - intros anyMethodObject mounts method Hobject Hnil Hmounts Hin Hunmapped.
    destruct (Mounts_path _ _ _ _ _ _ Hparsed Hitem Hmounts) as [Hfilter _].
    apply (list_elem_of_filter (λ mount, Path mount = path)). rewrite Hfilter.
    unfold pathMounts. apply elem_of_app. right. cbn [fst snd].
    rewrite (wildcardMounts_decoded _ _ _ _ _ Hany Hobject).
    rewrite <- (createMount_None c), <- Hnil.
    apply (list_elem_of_fmap_2 (anyMount c path anyMethodObject)).
    apply list_elem_of_filter. split; [|done].
    rewrite mappedAfter_lookup, Hunmapped. by rewrite andb_false_r.
Qed.

Lemma any_method_payload_failure_witness :
  (anyMethodFails Reference.collaborators (JString "oops") →
   ∃ e, Mounts Reference.collaborators Examples.brokenAnyMethodApi = Fails e) ∧
  (∀ anyMethodObject (mounts : list (ServerlessRouterMount string)) method,
     json_Unmarshal_ApiGatewayAnyMethod Reference.collaborators (JsonBytes (JString "oops"))
       = Ok anyMethodObject →
     parseIntegrationSettings Reference.collaborators (IntegrationSettings anyMethodObject)
       = None →
     Mounts Reference.collaborators Examples.brokenAnyMethodApi = Returns mounts →
     method ∈ HttpMethods →
     isMapped Reference.collaborators (Examples.itemOf Examples.brokenAnyMethodApi "/b") method
       = false →
     {| Name := "/b"; Path := "/b"; Method := strings_ToLower method; IntegrationArn := None |}
       ∈ mounts).
Proof.
  apply (any_method_payload_failure Reference.collaborators Examples.brokenAnyMethodApi
           (Examples.documentOf Examples.brokenAnyMethodApi) "/b"
           (Examples.itemOf Examples.brokenAnyMethodApi "/b") (JString "oops")).
  - eexists. split; reflexivity.
  - reflexivity.
  - reflexivity.
Defined.

(** C4 as stated fails, whichever parse is meant.  The any-method payload
    of [/b] does not decode: [Mounts] returns an error, not the mounts of
    the rest of the document.  The integration settings inside the
    any-method payload of [/a] do not parse: its wildcard mounts are not
    skipped, all seven come out with an empty handler reference. *)
Lemma any_method_failure_not_skipped :
  (Extensions (Examples.itemOf Examples.brokenAnyMethodApi "/b") !! apiGatewayAnyMethodExtension
     = Some (JString "oops") ∧
   anyMethodFails Reference.collaborators (JString "oops") ∧
   Mounts Reference.collaborators Examples.brokenAnyMethodApi
     = Fails "Could not unmarshal any method josn to object model") ∧
  (json_Unmarshal_ApiGatewayAnyMethod Reference.collaborators
     (JsonBytes (JObject {[ apiGatewayIntegrationExtension := JString "oops" ]}))
     = Ok {| IntegrationSettings := JString "oops" |} ∧
   parseIntegrationSettings Reference.collaborators (JString "oops") = None ∧
   Mounts Reference.collaborators Examples.brokenSettingsApi
     = Returns
         ((λ verb, {| Name := "/a"; Path := "/a"; Method := verb; IntegrationArn := None |})
            <$> ["get"; "post"; "put"; "delete"; "patch"; "head"; "options"])).
Proof.
  split.
  - split; [reflexivity|]. split; [|reflexivity].
    right. eexists _, _. split; reflexivity.
  - repeat split; reflexivity.
Qed.

(** * Further properties *)

Local Open Scope nat_scope.

(** ** The shape of the mount list *)

Section Shape.
Context (c : Collaborators).

Lemma pathMounts_elem_of mount path pathItem :
  mount ∈ pathMounts c (path, pathItem) →
  Name mount = path ∧ Path mount = path ∧
  ∃ method, method ∈ HttpMethods ∧ Method mount = strings_ToLower method.
Proof.
  unfold pathMounts. cbn [fst snd]. rewrite elem_of_app. intros [Hexplicit|Hwild].
  - apply elem_of_explicitMounts in Hexplicit as (method & integration & Hin & _ & ->).
    destruct (createMount_fields c path (strings_ToLower method)
                (parseIntegrationSettings c integration)) as (? & ? & ? & _). eauto.
  - unfold wildcardMounts in Hwild.
    destruct (Extensions pathItem !! _) as [anyMethod|]; [|by apply not_elem_of_nil in Hwild].
    destruct (json_Unmarshal_ApiGatewayAnyMethod c _) as [anyMethodObject|];
      [|by apply not_elem_of_nil in Hwild].
    apply list_elem_of_fmap in Hwild as (method & -> & [_ Hin]%list_elem_of_filter).
    destruct (createMount_fields c path (strings_ToLower method)
                (parseIntegrationSettings c (IntegrationSettings anyMethodObject)))
      as (? & ? & ? & _). eauto.
Qed.

(** A returned list is the blocks of the paths, in the order of the range. *)
Lemma Mounts_blocks api swagger paths mounts :
  parsesTo c api swagger →
  Swagger_Paths swagger = Some paths →
  Mounts c api = Returns mounts →
  mounts = rangeOrder c (Paths_Paths paths) ≫= pathMounts c.
Proof.
  intros Hparsed Hpaths. rewrite (Mounts_parsed _ _ _ Hparsed), Hpaths.
  destruct (forRange _ _ _) as [l|] eqn:Hloop; [|done]. intros [= ->].
  by apply forRange_mountPath in Hloop as [-> _].
Qed.

Lemma Mounts_elem_of api swagger mounts mount :
  parsesTo c api swagger →
  Mounts c api = Returns mounts →
  mount ∈ mounts →
  ∃ pathItem, pathItemAt swagger (Path mount) = Some pathItem ∧
              mount ∈ pathMounts c (Path mount, pathItem).
Proof.
  intros Hparsed Hmounts. unfold pathItemAt.
  destruct (Swagger_Paths swagger) as [paths|] eqn:Hpaths.
  - rewrite (Mounts_blocks _ _ _ _ Hparsed Hpaths Hmounts).
    intros ([path pathItem] & Hmount & Hentry)%list_elem_of_bind.
    pose proof (pathMounts_Path _ _ _ Hmount) as Hpath. cbn in Hpath. subst path.
    exists pathItem. split; [|done]. cbn. by apply rangeOrder_elem_of in Hentry.
  - by rewrite (Mounts_parsed _ _ _ Hparsed), Hpaths in Hmounts.
Qed.

Lemma pathMounts_length entry : length (pathMounts c entry) ≤ 7.
Proof.
  rewrite <- (length_fmap Method), <- HttpMethods_length,
    <- (length_fmap strings_ToLower HttpMethods).
  apply submseteq_length, NoDup_submseteq; [apply pathMounts_Method_NoDup|].
  intros verb (mount & -> & Hmount)%list_elem_of_fmap. destruct entry as [path pathItem].
  apply pathMounts_elem_of in Hmount as (_ & _ & method & Hin & ->).
  by apply list_elem_of_fmap_2.
Qed.

Lemma bind_length_le {A B : Type} (f : A → list B) (l : list A) n :
  (∀ x, length (f x) ≤ n) → length (l ≫= f) ≤ n * length l.
Proof.
  intros Hf. induction l as [|x l IH]; [cbn; lia|].
  rewrite bind_cons, length_app. cbn [length]. specialize (Hf x). lia.
Qed.

(** With a decodable any-method, the verbs of a path are the seven
    supported ones. *)
Lemma pathMounts_anyMethod_verbs path (pathItem : PathItem) anyMethod anyMethodObject :
  Extensions pathItem !! apiGatewayAnyMethodExtension = Some anyMethod →
  json_Unmarshal_ApiGatewayAnyMethod c (JsonBytes anyMethod) = Ok anyMethodObject →
  Method <$> pathMounts c (path, pathItem) ≡ₚ strings_ToLower <$> HttpMethods.
Proof.
  intros Hany Hobject. unfold pathMounts. cbn [fst snd].
  rewrite fmap_app, explicitMounts_Method.
  rewrite (wildcardMounts_decoded _ _ _ _ _ Hany Hobject), anyMount_Method.
  by rewrite mappedAfter_filter, <- fmap_app, filter_app_complement.
Qed.

End Shape.

(** X1. Every mount of a returned list is named after its path, its path
    is a path of the document, never rewritten, and its method is one of
    the seven supported methods in lower case. *)
Theorem Mounts_mounts_wellformed (c : Collaborators) (api : AWSServerlessApi)
    (swagger : spec_Swagger)
    (mounts : list (ServerlessRouterMount (LambdaFunctionArn c)))
    (mount : ServerlessRouterMount (LambdaFunctionArn c)) :
  parsesTo c api swagger →
  Mounts c api = Returns mounts →
  mount ∈ mounts →
  Name mount = Path mount ∧
  is_Some (pathItemAt swagger (Path mount)) ∧
  ∃ method, method ∈ HttpMethods ∧ Method mount = strings_ToLower method.
Proof.
  intros Hparsed Hmounts Hin.
  destruct (Mounts_elem_of _ _ _ _ _ Hparsed Hmounts Hin) as (pathItem & Hitem & Hblock).
  apply pathMounts_elem_of in Hblock as (Hname & _ & Hmethod).
  split; [done|]. split; [by exists pathItem|done].
Qed.

Lemma Mounts_mounts_wellformed_witness :
  let mount : ServerlessRouterMount string :=
    {| Name := "/orders"; Path := "/orders"; Method := "post";
       IntegrationArn := Some "fn-new-order" |} in
  Name mount = Path mount ∧
  is_Some (pathItemAt (Examples.documentOf Variants.twoPathsApi) (Path mount)) ∧
  ∃ method, method ∈ HttpMethods ∧ Method mount = strings_ToLower method.
Proof.
  apply (Mounts_mounts_wellformed Reference.collaborators Variants.twoPathsApi
           (Examples.documentOf Variants.twoPathsApi)
           (Examples.mountsOf Variants.twoPathsApi)).
  - eexists. split; reflexivity.
  - reflexivity.
  - vm_compute. apply list_elem_of_here.
Defined.

(** X2. A returned list holds at most seven mounts per path of the
    document. *)
Theorem Mounts_length_bound (c : Collaborators) (api : AWSServerlessApi)
    (swagger : spec_Swagger) (paths : Paths)
    (mounts : list (ServerlessRouterMount (LambdaFunctionArn c))) :
  parsesTo c api swagger →
  Swagger_Paths swagger = Some paths →
  Mounts c api = Returns mounts →
  length mounts ≤ 7 * size (Paths_Paths paths).
Proof.
  intros Hparsed Hpaths Hmounts.
  rewrite (Mounts_blocks _ _ _ _ _ Hparsed Hpaths Hmounts).
  rewrite <- (length_map_to_list (Paths_Paths paths)),
    <- (Permutation_length (rangeOrder_Permutation c (Paths_Paths paths))).
  apply bind_length_le, pathMounts_length.
Qed.

Lemma Mounts_length_bound_witness :
  length (Examples.mountsOf Variants.twoPathsApi)
  ≤ 7 * size (Paths_Paths
                (default {| Paths_Paths := ∅ |}
                   (Swagger_Paths (Examples.documentOf Variants.twoPathsApi)))).
Proof.
  apply (Mounts_length_bound Reference.collaborators Variants.twoPathsApi
           (Examples.documentOf Variants.twoPathsApi)).
  - eexists. split; reflexivity.
  - reflexivity.
  - reflexivity.
Defined.

(** X3. A document whose paths object is present and empty resolves to
    the empty mount list: [Mounts] returns it and no error. *)
Theorem Mounts_no_paths (c : Collaborators) (api : AWSServerlessApi)
    (swagger : spec_Swagger) (paths : Paths) :
  parsesTo c api swagger →
  Swagger_Paths swagger = Some paths →
  Paths_Paths paths = ∅ →
  Mounts c api = Returns [].
Proof.
  intros Hparsed Hpaths Hempty. rewrite (Mounts_parsed _ _ _ Hparsed), Hpaths, Hempty.
  pose proof (rangeOrder_Permutation c ∅) as Horder.
  rewrite map_to_list_empty in Horder. by apply Permutation_nil_r in Horder as ->.
Qed.

Lemma Mounts_no_paths_witness :
  Mounts Reference.collaborators Variants.emptyPathsApi = Returns [].
Proof.
  apply (Mounts_no_paths Reference.collaborators Variants.emptyPathsApi
           (Examples.documentOf Variants.emptyPathsApi) {| Paths_Paths := ∅ |}).
  - eexists. split; reflexivity.
  - reflexivity.
  - reflexivity.
Defined.

(** X4. In a returned list, a path that carries the any-method extension
    has exactly one mount for each of the seven supported methods: the
    verbs of its mounts are a rearrangement of the seven verbs. *)
Theorem any_method_path_has_every_method (c : Collaborators) (api : AWSServerlessApi)
    (swagger : spec_Swagger) (path : string) (pathItem : PathItem) (anyMethod : JSON)
    (mounts : list (ServerlessRouterMount (LambdaFunctionArn c))) :
  parsesTo c api swagger →
  pathItemAt swagger path = Some pathItem →
  Extensions pathItem !! apiGatewayAnyMethodExtension = Some anyMethod →
  Mounts c api = Returns mounts →
  Method <$> filter (λ mount, Path mount = path) mounts
    ≡ₚ strings_ToLower <$> HttpMethods.
Proof.
  intros Hparsed Hitem Hany Hmounts.
  destruct (Mounts_path _ _ _ _ _ _ Hparsed Hitem Hmounts) as [-> Hrun].
  destruct (mountPath_Ok_inv _ _ _ _ Hrun) as [_ Hdecode].
  destruct (Hdecode _ Hany) as (_ & anyMethodObject & Hobject).
  by eapply pathMounts_anyMethod_verbs.
Qed.

Lemma any_method_path_has_every_method_witness :
  Method <$> filter (λ mount, Path mount = "/users") (Examples.mountsOf Variants.twoPathsApi)
    ≡ₚ strings_ToLower <$> HttpMethods.
Proof.
  apply (any_method_path_has_every_method Reference.collaborators Variants.twoPathsApi
           (Examples.documentOf Variants.twoPathsApi) "/users"
           (Examples.itemOf Variants.twoPathsApi "/users")
           (Examples.routed "fn-catch-all")).
  - eexists. split; reflexivity.
  - reflexivity.
  - reflexivity.
  - reflexivity.
Defined.

(** X5. The mounts of a path depend on the item of that path alone: two
    resources whose documents hold the same item under a path get the same
    mounts, in the same order, for that path, whatever else the documents
    hold. *)
Theorem Mounts_path_is_local (c : Collaborators) (api1 api2 : AWSServerlessApi)
    (swagger1 swagger2 : spec_Swagger) (path : string) (pathItem : PathItem)
    (mounts1 mounts2 : list (ServerlessRouterMount (LambdaFunctionArn c))) :
  parsesTo c api1 swagger1 →
  parsesTo c api2 swagger2 →
  pathItemAt swagger1 path = Some pathItem →
  pathItemAt swagger2 path = Some pathItem →
  Mounts c api1 = Returns mounts1 →
  Mounts c api2 = Returns mounts2 →
  filter (λ mount, Path mount = path) mounts1 = filter (λ mount, Path mount = path) mounts2.
Proof.
  intros Hparsed1 Hparsed2 Hitem1 Hitem2 Hmounts1 Hmounts2.
  destruct (Mounts_path _ _ _ _ _ _ Hparsed1 Hitem1 Hmounts1) as [-> _].
  by destruct (Mounts_path _ _ _ _ _ _ Hparsed2 Hitem2 Hmounts2) as [-> _].
Qed.

Lemma Mounts_path_is_local_witness :
  filter (λ mount, Path mount = "/users") (Examples.mountsOf Examples.usersApi)
  = filter (λ mount, Path mount = "/users") (Examples.mountsOf Variants.twoPathsApi).
Proof.
  apply (Mounts_path_is_local Reference.collaborators Examples.usersApi Variants.twoPathsApi
           (Examples.documentOf Examples.usersApi)
           (Examples.documentOf Variants.twoPathsApi) "/users"
           (Examples.itemOf Examples.usersApi "/users")).
  - eexists. split; reflexivity.
  - eexists. split; reflexivity.
  - reflexivity.
  - reflexivity.
  - reflexivity.
  - reflexivity.
Defined.

(** X6. The per-method pass keeps its two results in step: every entry of
    [mappedMethods] is a supported method with the value true, and the
    verbs of the mounts it collected are the mapped methods in lower
    case, in the order of [HttpMethods]. *)
Theorem first_pass_keeps_mapped_in_step (c : Collaborators) (path : string)
    (pathItem : PathItem)
    (explicit : list (ServerlessRouterMount (LambdaFunctionArn c)))
    (mappedMethods : gmap string bool) :
  forRange (mountMethod c path pathItem) HttpMethods ([], ∅) = Ok (explicit, mappedMethods) →
  (∀ method value, mappedMethods !! method = Some value →
                   value = true ∧ method ∈ HttpMethods) ∧
  Method <$> explicit
  = strings_ToLower <$> filter (λ method, is_Some (mappedMethods !! method)) HttpMethods.
Proof.
  rewrite forRange_mountMethod.
  destruct (methodsError c pathItem HttpMethods); [done|]. rewrite app_nil_l.
  change (foldl (markMapped c pathItem) ∅ HttpMethods) with (mappedAfter c pathItem).
  intros Hpass.
  assert (explicit = explicitMounts c path pathItem HttpMethods) as -> by congruence.
  assert (mappedMethods = mappedAfter c pathItem) as -> by congruence.
  clear Hpass. split.
  - intros method value. rewrite mappedAfter_lookup.
    destruct (bool_decide (method ∈ HttpMethods)) eqn:Hin; [|done].
    apply bool_decide_eq_true in Hin.
    by destruct (isMapped c pathItem method); intros [= <-].
  - rewrite explicitMounts_Method. f_equal. apply filter_ext_elem_of.
    intros method Hin. rewrite mappedAfter_lookup, bool_decide_eq_true_2 by done.
    cbn [andb].
    destruct (isMapped c pathItem method); split; intros Hside;
      try done; try (by exists true); by destruct Hside.
Qed.

Lemma first_pass_keeps_mapped_in_step_witness :
  (∀ method value,
     ({[ "GET" := true; "POST" := true ]} : gmap string bool) !! method = Some value →
     value = true ∧ method ∈ HttpMethods) ∧
  Method <$> [ {| Name := "/a"; Path := "/a"; Method := "get"; IntegrationArn := Some "fn-a" |};
               {| Name := "/a"; Path := "/a"; Method := "post"; IntegrationArn := None |} ]
  = strings_ToLower
      <$> filter (λ method, is_Some (({[ "GET" := true; "POST" := true ]} : gmap string bool)
                                       !! method)) HttpMethods.
Proof.
  apply (first_pass_keeps_mapped_in_step Reference.collaborators "/a"
           (Examples.itemOf Examples.brokenAnyMethodApi "/a")).
  reflexivity.
Defined.

(** ** Decoding the any-method payload *)

Lemma toLower_compare a :
  Ascii.compare a (toLower a) = Eq ∨ Ascii.compare a (toLower a) = Lt.
Proof. destruct a as [[] [] [] [] [] [] [] []]; vm_compute; auto. Qed.

Lemma strings_ToLower_compare k : String.compare k (strings_ToLower k) ≠ Gt.
Proof.
  induction k as [|a k IH]; [done|]. cbn [strings_ToLower String.compare].
  by destruct (toLower_compare a) as [-> | ->].
Qed.

(** A key that differs from a lower-case name only in the case of its
    letters sorts before the name. *)
Lemma folded_key_sorts_first k name :
  strings_ToLower name = name → strings_ToLower k = strings_ToLower name → k ≠ name →
  String.ltb k name = true ∧ String.ltb name k = false.
Proof.
  intros Hname Hk Hne. rewrite Hname in Hk.
  pose proof (strings_ToLower_compare k) as Hle. rewrite Hk in Hle.
  unfold String.ltb. rewrite (String.compare_antisym name k).
  destruct (String.compare k name) eqn:Hcompare.
  - by apply String.compare_eq_iff in Hcompare.
  - done.
  - by destruct Hle.
Qed.

Lemma fieldMember_exact name (m : gmap string JSON) v :
  strings_ToLower name = name → m !! name = Some v →
  fieldMember name m = Some (name, v).
Proof.
  intros Hname Hm. unfold fieldMember.
  apply elem_of_map_to_list in Hm.
  pose proof (NoDup_fst_map_to_list m) as Hkeys.
  revert Hm Hkeys. generalize (map_to_list m). intros l.
  assert (∀ l' : list (string * JSON),
            name ∉ l'.*1 →
            match foldr (λ kv best,
                    if String.eqb (strings_ToLower kv.1) (strings_ToLower name) then
                      match best with
                      | Some b => if String.ltb b.1 kv.1 then Some kv else best
                      | None => Some kv
                      end
                    else best) None l' with
            | Some b => strings_ToLower b.1 = strings_ToLower name ∧ b.1 ≠ name
            | None => True
            end) as Hothers.
  { induction l' as [|[k w] l' IH]; [done|]. rewrite fmap_cons, not_elem_of_cons.
    intros [Hk Hl']. specialize (IH Hl'). cbn [foldr fst].
    destruct (String.eqb_spec (strings_ToLower k) (strings_ToLower name)) as [Hfold|]; [|done].
    destruct (foldr _ None l') as [b|]; [|done].
    destruct (String.ltb b.1 k); [|done]. cbn. split; [done|]. by intros ->. }
  induction l as [|[k w] l IH]; [by intros ?%not_elem_of_nil|].
  rewrite fmap_cons, NoDup_cons. intros [[= -> ->]|Hin]%elem_of_cons [Hfresh Hkeys];
    cbn [foldr fst].
  - rewrite String.eqb_refl. specialize (Hothers l Hfresh).
    destruct (foldr _ None l) as [b|]; [|done]. destruct Hothers as [Hfold Hne].
    by destruct (folded_key_sorts_first _ _ Hname Hfold Hne) as [-> _].
  - rewrite (IH Hin Hkeys).
    destruct (String.eqb_spec (strings_ToLower k) (strings_ToLower name)) as [Hfold|]; [|done].
    assert (k ≠ name) as Hne.
    { intros ->. apply Hfresh. by apply (list_elem_of_fmap_2 fst _ (name, v)). }
    cbn [fst]. by destruct (folded_key_sorts_first _ _ Hname Hfold Hne) as [_ ->].
Qed.

(** X7. Decoding an any-method payload into [ApiGatewayAnyMethod]: null
    gives the zero value, an object gives the value of its
    [x-amazon-apigateway-integration] member (null when it has none under
    any spelling of the key), and every other payload, a string, a
    number, a boolean or an array, is an error. *)
Theorem any_method_payload_decoding (c : Collaborators) :
  json_Unmarshal_ApiGatewayAnyMethod c (JsonBytes JNull)
    = Ok {| IntegrationSettings := JNull |} ∧
  (∀ (m : gmap string JSON) settings,
     m !! apiGatewayIntegrationExtension = Some settings →
     json_Unmarshal_ApiGatewayAnyMethod c (JsonBytes (JObject m))
       = Ok {| IntegrationSettings := settings |}) ∧
  (∀ m : gmap string JSON,
     (∀ k, is_Some (m !! k) →
           strings_ToLower k ≠ strings_ToLower apiGatewayIntegrationExtension) →
     json_Unmarshal_ApiGatewayAnyMethod c (JsonBytes (JObject m))
       = Ok {| IntegrationSettings := JNull |}) ∧
  (∀ j, nullOrObject j = false →
        ∃ e, json_Unmarshal_ApiGatewayAnyMethod c (JsonBytes j) = Err e).
Proof.
  split; [done|]. split; [|split].
  - intros m settings Hm. unfold json_Unmarshal_ApiGatewayAnyMethod. cbn [decode].
    by rewrite (fieldMember_exact _ _ _ eq_refl Hm).
  - intros m Hnone. unfold json_Unmarshal_ApiGatewayAnyMethod, fieldMember. cbn [decode].
    assert (∀ kv, kv ∈ map_to_list m →
                  strings_ToLower kv.1 ≠ strings_ToLower apiGatewayIntegrationExtension)
      as Hlist.
    { intros [k w] Hkv%elem_of_map_to_list. apply Hnone. by exists w. }
    revert Hlist. generalize (map_to_list m). intros l Hlist.
    induction l as [|kv l IH]; [done|]. cbn [foldr].
    destruct (String.eqb_spec (strings_ToLower kv.1)
                (strings_ToLower apiGatewayIntegrationExtension)) as [Hfold|_].
    + by destruct (Hlist kv (list_elem_of_here _ _)).
    + apply IH. intros other Hother. apply Hlist. by right.
  - intros j Hshape. unfold json_Unmarshal_ApiGatewayAnyMethod. cbn [decode].
    destruct j; try done; eauto.
Qed.

(** ** One mount for a path and a method *)

Section Pair.
Context (c : Collaborators).

Lemma createMount_record path verb integration :
  createMount c path verb integration =
  {| Name := path; Path := path; Method := verb; IntegrationArn := handlerOf c integration |}.
Proof.
  unfold createMount, handlerOf. destruct integration as [i|]; [|done].
  cbn. by destruct (GetFunctionArn c i).
Qed.

Lemma explicitMount_Method mount path pathItem method :
  mount ∈ explicitMount c path pathItem method → Method mount = strings_ToLower method.
Proof.
  unfold explicitMount.
  destruct (integrationSeen c pathItem method) as [[integration|]|];
    try by intros ?%not_elem_of_nil.
  intros ->%list_elem_of_singleton. apply createMount_fields.
Qed.

(** Among the explicit mounts, those of one method. *)
Lemma explicitMounts_filter_Method path pathItem methods method :
  NoDup (strings_ToLower <$> methods) → method ∈ methods →
  filter (λ mount, Method mount = strings_ToLower method)
    (explicitMounts c path pathItem methods)
  = explicitMount c path pathItem method.
Proof.
  unfold explicitMounts. induction methods as [|m rest IH]; [by intros _ ?%not_elem_of_nil|].
  rewrite fmap_cons, NoDup_cons, bind_cons, filter_app.
  intros [Hfresh Hrest] [->|Hin]%elem_of_cons.
  - rewrite filter_all by (intros mount Hmount; by eapply explicitMount_Method).
    rewrite filter_none; [by rewrite app_nil_r|].
    intros mount (other & Hmount & Hother)%list_elem_of_bind Hverb.
    apply Hfresh. rewrite (explicitMount_Method _ _ _ _ Hmount) in Hverb.
    rewrite <- Hverb. by apply list_elem_of_fmap_2.
  - rewrite filter_none; [by rewrite app_nil_l, IH|].
    intros mount Hmount Hverb. apply Hfresh.
    rewrite (explicitMount_Method _ _ _ _ Hmount) in Hverb.
    rewrite Hverb. by apply list_elem_of_fmap_2.
Qed.

(** The any-method pass leaves a mapped method alone. *)
Lemma wildcardMounts_mapped path pathItem method :
  method ∈ HttpMethods → isMapped c pathItem method = true →
  filter (λ mount, Method mount = strings_ToLower method) (wildcardMounts c path pathItem) = [].
Proof.
  intros Hin Hmapped. apply filter_none. intros mount Hmount Hverb.
  unfold wildcardMounts in Hmount.
  destruct (Extensions pathItem !! _) as [anyMethod|]; [|by apply not_elem_of_nil in Hmount].
  destruct (json_Unmarshal_ApiGatewayAnyMethod c _) as [anyMethodObject|];
    [|by apply not_elem_of_nil in Hmount].
  apply list_elem_of_fmap in Hmount as (other & -> & [Hother Hin']%list_elem_of_filter).
  destruct (createMount_fields c path (strings_ToLower other)
              (parseIntegrationSettings c (IntegrationSettings anyMethodObject)))
    as (_ & _ & Hother_verb & _).
  unfold anyMount in Hverb. rewrite Hother_verb in Hverb.
  apply (NoDup_fmap_inj_on strings_ToLower HttpMethods) in Hverb as ->;
    [|apply HttpMethods_lower_NoDup|done..].
  rewrite mappedAfter_lookup, Hmapped, bool_decide_eq_true_2 in Hother; done.
Qed.

(** The mounts of a path and a method the first pass did not map. *)
Lemma unmapped_pair api swagger path (pathItem : PathItem) method mounts :
  parsesTo c api swagger →
  pathItemAt swagger path = Some pathItem →
  method ∈ HttpMethods →
  isMapped c pathItem method = false →
  Mounts c api = Returns mounts →
  (Extensions pathItem !! apiGatewayAnyMethodExtension = None →
   filter (λ mount, Path mount = path ∧ Method mount = strings_ToLower method) mounts = []) ∧
  (∀ anyMethod,
     Extensions pathItem !! apiGatewayAnyMethodExtension = Some anyMethod →
     ∃ anyMethodObject,
       json_Unmarshal_ApiGatewayAnyMethod c (JsonBytes anyMethod) = Ok anyMethodObject ∧
       filter (λ mount, Path mount = path ∧ Method mount = strings_ToLower method) mounts
       = [ {| Name := path; Path := path; Method := strings_ToLower method;
              IntegrationArn :=
                handlerOf c (parseIntegrationSettings c (IntegrationSettings anyMethodObject)) |} ]).
Proof.
  intros Hparsed Hitem Hin Hunmapped Hmounts.
  destruct (Mounts_path _ _ _ _ _ _ Hparsed Hitem Hmounts) as [_ Hrun].
  rewrite (filter_pair _ _ _ _ _ _ _ Hparsed Hitem Hmounts).
  rewrite explicitMounts_unmapped, app_nil_l by done.
  split.
  - intros Hnone. unfold wildcardMounts. by rewrite Hnone.
  - intros anyMethod Hany.
    destruct (mountPath_Ok_inv _ _ _ _ Hrun) as [_ Hdecode].
    destruct (Hdecode _ Hany) as (_ & anyMethodObject & Hobject).
    exists anyMethodObject. split; [done|].
    rewrite (wildcardMounts_unmapped _ _ _ _ _ _ Hany Hobject Hin Hunmapped).
    unfold anyMount. by rewrite createMount_record.
Qed.

End Pair.

(** X8. In a returned list, a supported method whose operation carries an
    integration that is not null has exactly one mount for its path, the
    one made from that integration: the any-method extension of the path
    adds no second mount for it and never supplies its handler, not even
    when the integration of the operation fails to parse. *)
Theorem explicit_mount_is_the_only_one (c : Collaborators) (api : AWSServerlessApi)
    (swagger : spec_Swagger) (path : string) (pathItem : PathItem) (method : string)
    (operation : Operation) (integration : JSON)
    (mounts : list (ServerlessRouterMount (LambdaFunctionArn c))) :
  parsesTo c api swagger →
  pathItemAt swagger path = Some pathItem →
  decodedExtensions pathItem →
  method ∈ HttpMethods →
  methodOperation pathItem method = Some operation →
  Extensions operation !! apiGatewayIntegrationExtension = Some integration →
  integration ≠ JNull →
  Mounts c api = Returns mounts →
  filter (λ mount, Path mount = path ∧ Method mount = strings_ToLower method) mounts
  = [ {| Name := path; Path := path; Method := strings_ToLower method;
         IntegrationArn := handlerOf c (parseIntegrationSettings c integration) |} ].
Proof.
  intros Hparsed Hitem Hdecoded Hin Hoperation Hcarried Hnonnull Hmounts.
  destruct (Mounts_path _ _ _ _ _ _ Hparsed Hitem Hmounts) as [_ Hrun].
  pose proof (integrationSeen_carried _ _ _ _ _ _ _ Hdecoded Hin Hoperation Hcarried Hrun)
    as Hseen.
  assert (integrationSeen c pathItem method = Ok (Some integration)) as Hseen'.
  { rewrite Hseen. by destruct integration. }
  rewrite (filter_pair _ _ _ _ _ _ _ Hparsed Hitem Hmounts).
  rewrite explicitMounts_filter_Method by (apply HttpMethods_lower_NoDup || done).
  rewrite wildcardMounts_mapped, app_nil_r by (done || (unfold isMapped; by rewrite Hseen')).
  unfold explicitMount. by rewrite Hseen', createMount_record.
Qed.

Lemma explicit_mount_is_the_only_one_witness :
  filter (λ mount : ServerlessRouterMount string, Path mount = "/a" ∧ Method mount = "get")
    (Examples.mountsOf Variants.shadowedApi)
  = [ {| Name := "/a"; Path := "/a"; Method := "get"; IntegrationArn := None |} ].
Proof.
  apply (explicit_mount_is_the_only_one Reference.collaborators Variants.shadowedApi
           (Examples.documentOf Variants.shadowedApi) "/a"
           (Examples.itemOf Variants.shadowedApi "/a") "GET"
           {| Operation_VendorExtensible :=
                {| Extensions := {[ apiGatewayIntegrationExtension := JString "oops" ]} |} |}
           (JString "oops")).
  - eexists. split; reflexivity.
  - reflexivity.
  - apply (bool_decide_unpack _). by vm_compute.
  - apply (bool_decide_unpack _). by vm_compute.
  - reflexivity.
  - reflexivity.
  - discriminate.
  - reflexivity.
Defined.

(** X9. An integration member whose value is null counts as no integration
    at all: in a returned list the method has no mount when its path has
    no any-method extension, and otherwise its only mount is the wildcard
    mount of the any-method extension. *)
Theorem null_integration_counts_as_absent (c : Collaborators) (api : AWSServerlessApi)
    (swagger : spec_Swagger) (path : string) (pathItem : PathItem) (method : string)
    (operation : Operation)
    (mounts : list (ServerlessRouterMount (LambdaFunctionArn c))) :
  parsesTo c api swagger →
  pathItemAt swagger path = Some pathItem →
  decodedExtensions pathItem →
  method ∈ HttpMethods →
  methodOperation pathItem method = Some operation →
  Extensions operation !! apiGatewayIntegrationExtension = Some JNull →
  Mounts c api = Returns mounts →
  (Extensions pathItem !! apiGatewayAnyMethodExtension = None →
   filter (λ mount, Path mount = path ∧ Method mount = strings_ToLower method) mounts = []) ∧
  (∀ anyMethod,
     Extensions pathItem !! apiGatewayAnyMethodExtension = Some anyMethod →
     ∃ anyMethodObject,
       json_Unmarshal_ApiGatewayAnyMethod c (JsonBytes anyMethod) = Ok anyMethodObject ∧
       filter (λ mount, Path mount = path ∧ Method mount = strings_ToLower method) mounts
       = [ {| Name := path; Path := path; Method := strings_ToLower method;
              IntegrationArn :=
                handlerOf c (parseIntegrationSettings c (IntegrationSettings anyMethodObject)) |} ]).
Proof.
  intros Hparsed Hitem Hdecoded Hin Hoperation Hcarried Hmounts.
  destruct (Mounts_path _ _ _ _ _ _ Hparsed Hitem Hmounts) as [_ Hrun].
  pose proof (integrationSeen_carried _ _ _ _ _ _ _ Hdecoded Hin Hoperation Hcarried Hrun)
    as Hseen.
  apply (unmapped_pair _ _ _ _ _ _ _ Hparsed Hitem Hin); [|done].
  unfold isMapped. by rewrite Hseen.
Qed.

Lemma null_integration_counts_as_absent_witness :
  (Extensions (Examples.itemOf Variants.nullWithAnyMethodApi "/a")
     !! apiGatewayAnyMethodExtension = None →
   filter (λ mount : ServerlessRouterMount string, Path mount = "/a" ∧ Method mount = "get")
     (Examples.mountsOf Variants.nullWithAnyMethodApi) = []) ∧
  (∀ anyMethod,
     Extensions (Examples.itemOf Variants.nullWithAnyMethodApi "/a")
       !! apiGatewayAnyMethodExtension = Some anyMethod →
     ∃ anyMethodObject,
       json_Unmarshal_ApiGatewayAnyMethod Reference.collaborators (JsonBytes anyMethod)
         = Ok anyMethodObject ∧
       filter (λ mount, Path mount = "/a" ∧ Method mount = "get")
         (Examples.mountsOf Variants.nullWithAnyMethodApi)
       = [ {| Name := "/a"; Path := "/a"; Method := "get";
              IntegrationArn :=
                handlerOf Reference.collaborators
                  (parseIntegrationSettings Reference.collaborators
                     (IntegrationSettings anyMethodObject)) |} ]).
Proof.
  apply (null_integration_counts_as_absent Reference.collaborators
           Variants.nullWithAnyMethodApi
           (Examples.documentOf Variants.nullWithAnyMethodApi) "/a"
           (Examples.itemOf Variants.nullWithAnyMethodApi "/a") "GET"
           {| Operation_VendorExtensible :=
                {| Extensions := {[ apiGatewayIntegrationExtension := JNull ]} |} |}
           (Examples.mountsOf Variants.nullWithAnyMethodApi)).
  - eexists. split; reflexivity.
  - reflexivity.
  - apply (bool_decide_unpack _). by vm_compute.
  - apply (bool_decide_unpack _). by vm_compute.
  - reflexivity.
  - reflexivity.
  - reflexivity.
Defined.

(** X10. Without an any-method extension nothing is made up: in a
    returned list every mount of such a path comes from an operation of a
    supported method that carries an integration that is not null, and
    holds the handler resolved from that integration. *)
Theorem mounts_come_from_operations (c : Collaborators) (api : AWSServerlessApi)
    (swagger : spec_Swagger) (path : string) (pathItem : PathItem)
    (mounts : list (ServerlessRouterMount (LambdaFunctionArn c)))
    (mount : ServerlessRouterMount (LambdaFunctionArn c)) :
  parsesTo c api swagger →
  pathItemAt swagger path = Some pathItem →
  decodedExtensions pathItem →
  Extensions pathItem !! apiGatewayAnyMethodExtension = None →
  Mounts c api = Returns mounts →
  mount ∈ mounts →
  Path mount = path →
  ∃ method (operation : Operation) integration,
    method ∈ HttpMethods ∧
    methodOperation pathItem method = Some operation ∧
    Extensions operation !! apiGatewayIntegrationExtension = Some integration ∧
    integration ≠ JNull ∧
    mount = {| Name := path; Path := path; Method := strings_ToLower method;
               IntegrationArn := handlerOf c (parseIntegrationSettings c integration) |}.
Proof.
  intros Hparsed Hitem Hdecoded Hnone Hmounts Hin Hpath.
  destruct (Mounts_path _ _ _ _ _ _ Hparsed Hitem Hmounts) as [Hfilter Hrun].
  assert (mount ∈ pathMounts c (path, pathItem)) as Hblock.
  { rewrite <- Hfilter. by apply list_elem_of_filter. }
  unfold pathMounts, wildcardMounts in Hblock. cbn [fst snd] in Hblock.
  rewrite Hnone, app_nil_r in Hblock.
  apply elem_of_explicitMounts in Hblock as (method & integration & Hmethod & Hseen & ->).
  rewrite (integrationSeen_decoded _ _ _ Hdecoded Hmethod) in Hseen.
  destruct (json_Marshal_error c _); [done|].
  destruct (methodOperation pathItem method) as [operation|] eqn:Hoperation; [|done].
  cbn in Hseen.
  destruct (Extensions operation !! apiGatewayIntegrationExtension)
    as [carried|] eqn:Hcarried; [|done].
  exists method, operation, integration.
  assert (carried = integration ∧ integration ≠ JNull) as [-> Hnonnull].
  { destruct carried; try done; injection Hseen as <-; done. }
  by rewrite createMount_record.
Qed.

Lemma mounts_come_from_operations_witness :
  ∃ method (operation : Operation) integration,
    method ∈ HttpMethods ∧
    methodOperation (Examples.itemOf Variants.twoPathsApi "/orders") method = Some operation ∧
    Extensions operation !! apiGatewayIntegrationExtension = Some integration ∧
    integration ≠ JNull ∧
    ({| Name := "/orders"; Path := "/orders"; Method := "post";
        IntegrationArn := Some "fn-new-order" |} : ServerlessRouterMount string)
    = {| Name := "/orders"; Path := "/orders"; Method := strings_ToLower method;
         IntegrationArn :=
           handlerOf Reference.collaborators
             (parseIntegrationSettings Reference.collaborators integration) |}.
Proof.
  apply (mounts_come_from_operations Reference.collaborators Variants.twoPathsApi
           (Examples.documentOf Variants.twoPathsApi) "/orders"
           (Examples.itemOf Variants.twoPathsApi "/orders")
           (Examples.mountsOf Variants.twoPathsApi)).
  - eexists. split; reflexivity.
  - reflexivity.
  - apply (bool_decide_unpack _). by vm_compute.
  - reflexivity.
  - reflexivity.
  - vm_compute. apply list_elem_of_here.
  - reflexivity.
Defined.

(** X11. The handler of the wildcard mounts is resolved from the
    [x-amazon-apigateway-integration] member of the any-method object: in
    a returned list, for a path whose any-method extension is an object
    with that member, every supported method the first pass did not map
    has one mount, with the handler resolved from the value of the
    member. *)
Theorem wildcard_handler_is_any_method_integration (c : Collaborators)
    (api : AWSServerlessApi) (swagger : spec_Swagger) (path : string) (pathItem : PathItem)
    (anyMethod : gmap string JSON) (settings : JSON) (method : string)
    (mounts : list (ServerlessRouterMount (LambdaFunctionArn c))) :
  parsesTo c api swagger →
  pathItemAt swagger path = Some pathItem →
  Extensions pathItem !! apiGatewayAnyMethodExtension = Some (JObject anyMethod) →
  anyMethod !! apiGatewayIntegrationExtension = Some settings →
  method ∈ HttpMethods →
  isMapped c pathItem method = false →
  Mounts c api = Returns mounts →
  filter (λ mount, Path mount = path ∧ Method mount = strings_ToLower method) mounts
  = [ {| Name := path; Path := path; Method := strings_ToLower method;
         IntegrationArn := handlerOf c (parseIntegrationSettings c settings) |} ].
Proof.
  intros Hparsed Hitem Hany Hsettings Hin Hunmapped Hmounts.
  destruct (unmapped_pair _ _ _ _ _ _ _ Hparsed Hitem Hin Hunmapped Hmounts) as [_ Hwild].
  destruct (Hwild _ Hany) as (anyMethodObject & Hobject & ->).
  unfold json_Unmarshal_ApiGatewayAnyMethod in Hobject. cbn [decode] in Hobject.
  rewrite (fieldMember_exact _ _ _ eq_refl Hsettings) in Hobject.
  by injection Hobject as <-.
Qed.

Lemma wildcard_handler_is_any_method_integration_witness :
  filter (λ mount : ServerlessRouterMount string, Path mount = "/users" ∧ Method mount = "put")
    (Examples.mountsOf Examples.usersApi)
  = [ {| Name := "/users"; Path := "/users"; Method := "put";
         IntegrationArn := Some "fn-catch-all" |} ].
Proof.
  apply (wildcard_handler_is_any_method_integration Reference.collaborators Examples.usersApi
           (Examples.documentOf Examples.usersApi) "/users"
           (Examples.itemOf Examples.usersApi "/users")
           {[ apiGatewayIntegrationExtension := Examples.integration "fn-catch-all" ]}
           (Examples.integration "fn-catch-all") "PUT").
  - eexists. split; reflexivity.
  - reflexivity.
  - reflexivity.
  - reflexivity.
  - apply (bool_decide_unpack _). by vm_compute.
  - reflexivity.
  - reflexivity.
Defined.

(** ** The order of the range *)

Section Order.
Context (c : Collaborators).

Lemma mountPath_from_acc entry mounts :
  mountPath c entry [] = Ok (pathMounts c entry) →
  mountPath c entry mounts = Ok (mounts ++ pathMounts c entry).
Proof.
  intros Hnil. destruct (mountPath c entry mounts) as [mounts'|e] eqn:Hrun.
  - by apply mountPath_Ok in Hrun as ->.
  - exfalso. destruct entry as [path pathItem]. unfold mountPath in *.
    rewrite forRange_mountMethod in *.
    destruct (methodsError c pathItem HttpMethods); [done|].
    destruct (Extensions pathItem !! apiGatewayAnyMethodExtension); [|done].
    destruct (json_Marshal c _); [|done].
    destruct (json_Unmarshal_ApiGatewayAnyMethod c _); done.
Qed.

(** When every iteration goes through on its own, the loop goes through. *)
Lemma forRange_mountPath_Ok entries mounts :
  Forall (λ entry, mountPath c entry [] = Ok (pathMounts c entry)) entries →
  forRange (mountPath c) entries mounts = Ok (mounts ++ (entries ≫= pathMounts c)).
Proof.
  intros Hall. revert mounts. induction Hall as [|entry rest Hentry _ IH]; intros mounts;
    cbn [forRange].
  - change ([] ≫= _) with (@nil (ServerlessRouterMount (LambdaFunctionArn c))).
    by rewrite app_nil_r.
  - by rewrite (mountPath_from_acc _ _ Hentry), IH, bind_cons, app_assoc.
Qed.

End Order.

(** X12. The order in which the paths are ranged over changes the order
    of the mounts and nothing else: when [Mounts] returns a list under
    one order, it returns a rearrangement of that list under any other. *)
Theorem Mounts_order_only_rearranges (c : Collaborators)
    (order : gmap string PathItem → list (string * PathItem))
    (law : ∀ m, order m ≡ₚ map_to_list m) (api : AWSServerlessApi)
    (mounts : list (ServerlessRouterMount (LambdaFunctionArn c))) :
  Mounts c api = Returns mounts →
  ∃ mounts', Mounts (withRangeOrder c order law) api = Returns mounts' ∧ mounts' ≡ₚ mounts.
Proof.
  intros Hmounts. destruct (Mounts_Returns _ _ _ Hmounts) as [swagger Hparsed].
  assert (parsesTo (withRangeOrder c order law) api swagger) as Hparsed' by exact Hparsed.
  rewrite (Mounts_parsed _ _ _ Hparsed'). rewrite (Mounts_parsed _ _ _ Hparsed) in Hmounts.
  destruct (Swagger_Paths swagger) as [paths|]; [|done].
  destruct (forRange _ _ _) as [l|] eqn:Hloop in Hmounts; [|done]. injection Hmounts as ->.
  apply forRange_mountPath in Hloop as [-> Hall]. rewrite app_nil_l.
  change (forRange (mountPath (withRangeOrder c order law))
            (rangeOrder (withRangeOrder c order law) (Paths_Paths paths)) [])
    with (forRange (mountPath c) (order (Paths_Paths paths)) []).
  assert (order (Paths_Paths paths) ≡ₚ rangeOrder c (Paths_Paths paths)) as Hperm.
  { by rewrite law, (rangeOrder_Permutation c). }
  rewrite forRange_mountPath_Ok by (by rewrite Hperm). rewrite app_nil_l.
  eexists. split; [reflexivity|]. by rewrite Hperm.
Qed.

Lemma Mounts_order_only_rearranges_witness :
  ∃ mounts', Mounts Variants.backwards Variants.twoPathsApi = Returns mounts' ∧
             mounts' ≡ₚ Examples.mountsOf Variants.twoPathsApi.
Proof.
  apply (Mounts_order_only_rearranges Reference.collaborators
           (λ m, reverse (map_to_list m)) (λ m, reverse_Permutation (map_to_list m))
           Variants.twoPathsApi).
  reflexivity.
Defined.

(** ** Panics and errors *)

Section Failures.
Context (c : Collaborators).

Lemma Swagger_Panics api msg :
  Swagger c api = Panics msg ↔
  ∃ loc, DefinitionUri api ≫= String_ = None ∧
         DefinitionUri api ≫= S3Location = Some loc ∧
         session_NewSession c = Err msg.
Proof.
  unfold Swagger. split.
  - destruct (DefinitionUri api ≫= String_) as [uri|].
    { unfold getSwaggerFromURI. by destruct (ioutil_ReadFile c uri). }
    destruct (DefinitionUri api ≫= S3Location) as [loc|].
    + unfold getSwaggerFromS3Location.
      destruct (session_NewSession c) as [?|e] eqn:Hsession.
      * by destruct (s3_GetObject c _ _ _) as [[]|].
      * intros [= <-]. by exists loc.
    + destruct (DefinitionBody api) as [| | | |l|m]; try done.
      unfold getSwaggerFromMap. by destruct (json_Marshal c _).
  - intros (loc & -> & -> & Hsession). unfold getSwaggerFromS3Location.
    by rewrite Hsession.
Qed.

Lemma integrationSeen_Err pathItem method e :
  integrationSeen c pathItem method = Err e →
  ∃ e', e = "Could not parse " +:+ method +:+ " operation: " +:+ e'.
Proof.
  unfold integrationSeen. destruct (JSONLookup pathItem _) as [v|]; [|done].
  destruct (json_Marshal c v) as [data|e']; [|intros [= <-]; eauto].
  by destruct (Extensions (Operation_UnmarshalJSON c data) !! _) as [[]|].
Qed.

Lemma methodsError_Some pathItem methods e :
  methodsError c pathItem methods = Some e →
  ∃ method e', method ∈ methods ∧
               e = "Could not parse " +:+ method +:+ " operation: " +:+ e'.
Proof.
  induction methods as [|m rest IH]; [done|]. cbn [methodsError].
  destruct (integrationSeen c pathItem m) as [seen|e0] eqn:Hseen.
  - intros (method & e' & Hin & ->)%IH. exists method, e'. split; [by right|done].
  - intros [= <-]. apply integrationSeen_Err in Hseen as [e' ->].
    exists m, e'. split; [by left|done].
Qed.

Lemma mountPath_Err entry mounts e :
  mountPath c entry mounts = Err e → walkError e.
Proof.
  destruct entry as [path pathItem]. unfold mountPath. rewrite forRange_mountMethod.
  destruct (methodsError c pathItem HttpMethods) as [e0|] eqn:Hmethods.
  - intros [= <-]. apply methodsError_Some in Hmethods as (method & e' & Hin & ->).
    by constructor.
  - destruct (Extensions pathItem !! apiGatewayAnyMethodExtension); [|done].
    destruct (json_Marshal c _); [|intros [= <-]; constructor].
    destruct (json_Unmarshal_ApiGatewayAnyMethod c _); [done|intros [= <-]; constructor].
Qed.

Lemma forRange_mountPath_Err entries mounts e :
  forRange (mountPath c) entries mounts = Err e → walkError e.
Proof.
  revert mounts. induction entries as [|entry rest IH]; intros mounts; cbn [forRange]; [done|].
  destruct (mountPath c entry mounts) as [mounts'|e0] eqn:Hentry; [apply IH|].
  intros [= <-]. by eapply mountPath_Err.
Qed.

End Failures.

(** X13. [Mounts] panics in two cases and no other: the definition is
    taken from the object store and no session can be made, with the
    panic of [session.Must]; or the decoded document has no paths, with a
    nil pointer dereference. *)
Theorem Mounts_panics_exactly_when (c : Collaborators) (api : AWSServerlessApi)
    (msg : string) :
  Mounts c api = Panics msg ↔
  (∃ loc, DefinitionUri api ≫= String_ = None ∧
          DefinitionUri api ≫= S3Location = Some loc ∧
          session_NewSession c = Err msg) ∨
  (∃ swagger, parsesTo c api swagger ∧
              Swagger_Paths swagger = None ∧
              msg = "runtime error: invalid memory address or nil pointer dereference").
Proof.
  split.
  - intros Hpanics. unfold Mounts in Hpanics.
    destruct (Swagger c api) as [jsonDefinition|e|msg'] eqn:Hbytes; [|done|].
    + destruct (Swagger_UnmarshalJSON c jsonDefinition) as [swagger|] eqn:Hdoc; [|done].
      destruct (Swagger_Paths swagger) as [paths|] eqn:Hpaths.
      * by destruct (forRange _ _ _).
      * injection Hpanics as <-. right. exists swagger.
        split; [by exists jsonDefinition|done].
    + injection Hpanics as ->. left. by apply Swagger_Panics.
  - intros [Hsession|(swagger & Hparsed & Hpaths & ->)].
    + apply Swagger_Panics in Hsession. unfold Mounts. by rewrite Hsession.
    + by rewrite (Mounts_parsed _ _ _ Hparsed), Hpaths.
Qed.

Example Mounts_offline_panics :
  Mounts Variants.offline Variants.objectStoreApi
  = Panics "NoCredentialProviders: no valid providers in chain".
Proof. reflexivity. Qed.

(** X14. An error of [Mounts] is the error of [Swagger], unchanged, or the
    error of the document decoder behind "Cannot parse Swagger
    definition: ", or one of the three errors of the walk: "Could not
    parse M operation: ..." for a supported method M, "Could not marshal
    any method object to json", "Could not unmarshal any method josn to
    object model". *)
Theorem Mounts_errors (c : Collaborators) (api : AWSServerlessApi) (e : error) :
  Mounts c api = Fails e →
  Swagger c api = Fails e ∨
  (∃ jsonDefinition e',
     Swagger c api = Returns jsonDefinition ∧
     Swagger_UnmarshalJSON c jsonDefinition = Err e' ∧
     e = "Cannot parse Swagger definition: " +:+ e') ∨
  walkError e.
Proof.
  unfold Mounts. destruct (Swagger c api) as [jsonDefinition|e0|msg]; [|intros [= <-]; by left|done].
  destruct (Swagger_UnmarshalJSON c jsonDefinition) as [swagger|e'] eqn:Hdoc.
  - destruct (Swagger_Paths swagger) as [paths|]; [|done].
    destruct (forRange _ _ _) as [l|e0] eqn:Hloop; [done|]. intros [= <-].
    right. right. by eapply forRange_mountPath_Err.
  - intros [= <-]. right. left. by exists jsonDefinition, e'.
Qed.

Lemma Mounts_errors_witness :
  Swagger Reference.collaborators Examples.brokenAnyMethodApi
    = Fails "Could not unmarshal any method josn to object model" ∨
  (∃ jsonDefinition e',
     Swagger Reference.collaborators Examples.brokenAnyMethodApi = Returns jsonDefinition ∧
     Swagger_UnmarshalJSON Reference.collaborators jsonDefinition = Err e' ∧
     "Could not unmarshal any method josn to object model"
       = "Cannot parse Swagger definition: " +:+ e') ∨
  walkError "Could not unmarshal any method josn to object model".
Proof.
  apply (Mounts_errors Reference.collaborators Examples.brokenAnyMethodApi).
  reflexivity.
Defined.

(** X15. A definition URI that cannot be read is final: [Swagger] and
    [Mounts] fail with "Cannot read local Swagger definition (uri): ...",
    and neither the object-store location nor the inline body of the
    resource is tried instead. *)
Theorem unreadable_uri_is_final (c : Collaborators) (api : AWSServerlessApi)
    (uri : string) (e : error) :
  DefinitionUri api ≫= String_ = Some uri →
  ioutil_ReadFile c uri = Err e →
  Swagger c api = Fails ("Cannot read local Swagger definition (" +:+ uri +:+ "): " +:+ e) ∧
  Mounts c api = Fails ("Cannot read local Swagger definition (" +:+ uri +:+ "): " +:+ e).
Proof.
  intros Huri Hread.
  assert (Swagger c api
          = Fails ("Cannot read local Swagger definition (" +:+ uri +:+ "): " +:+ e)) as Hfails.
  { unfold Swagger, getSwaggerFromURI. by rewrite Huri, Hread. }
  split; [done|]. by apply Mounts_Swagger_Fails.
Qed.

Lemma unreadable_uri_is_final_witness :
  Swagger Reference.collaborators Variants.unreadableUriApi
    = Fails ("Cannot read local Swagger definition (" +:+ "missing.json" +:+ "): "
             +:+ "open missing.json: no such file or directory") ∧
  Mounts Reference.collaborators Variants.unreadableUriApi
    = Fails ("Cannot read local Swagger definition (" +:+ "missing.json" +:+ "): "
             +:+ "open missing.json: no such file or directory").
Proof.
  apply (unreadable_uri_is_final Reference.collaborators Variants.unreadableUriApi);
    reflexivity.
Defined.

(** X16. A definition that cannot be fetched from the object store is
    final: with a session and a request that fails, [Mounts] fails with
    "Error while fetching Swagger template from S3: ", the bucket and the
    key joined without a separator, a line break and the error of the
    request; the inline body of the resource is not tried instead. *)
Theorem object_store_failure_is_final (c : Collaborators) (api : AWSServerlessApi)
    (loc : AWSServerlessApi_S3Location) (session : unit) (e : error) :
  DefinitionUri api ≫= String_ = None →
  DefinitionUri api ≫= S3Location = Some loc →
  session_NewSession c = Ok session →
  (∀ versionId, s3_GetObject c (Bucket loc) (Key loc) versionId = Err e) →
  Mounts c api
  = Fails ("Error while fetching Swagger template from S3: "
           +:+ (Bucket loc +:+ Key loc) +:+ newline +:+ e).
Proof.
  intros Huri Hloc Hsession Hrequest. apply Mounts_Swagger_Fails.
  unfold Swagger, getSwaggerFromS3Location. by rewrite Huri, Hloc, Hsession, Hrequest.
Qed.

Lemma object_store_failure_is_final_witness :
  Mounts Reference.collaborators Variants.objectStoreApi
  = Fails ("Error while fetching Swagger template from S3: "
           +:+ ("bucket" +:+ "key") +:+ newline
           +:+ "NoSuchBucket: The specified bucket does not exist").
Proof.
  apply (object_store_failure_is_final Reference.collaborators Variants.objectStoreApi
           {| Bucket := "bucket"; Key := "key"; Version := 1 |} ()).
  - reflexivity.
  - reflexivity.
  - reflexivity.
  - intros versionId. reflexivity.
Defined.

(** X17. An inline text is handed on as it is: [Swagger] returns its
    bytes without looking at them, for any text, and a text the document
    decoder refuses makes [Mounts] fail with the error of the decoder
    behind "Cannot parse Swagger definition: ". *)
Theorem inline_text_is_not_validated (c : Collaborators) (api : AWSServerlessApi)
    (text : string) :
  DefinitionUri api ≫= String_ = None →
  DefinitionUri api ≫= S3Location = None →
  DefinitionBody api = JString text →
  Swagger c api = Returns (RawBytes text) ∧
  ∀ e, Swagger_UnmarshalJSON c (RawBytes text) = Err e →
       Mounts c api = Fails ("Cannot parse Swagger definition: " +:+ e).
Proof.
  intros Huri Hloc Hbody.
  assert (Swagger c api = Returns (RawBytes text)) as Hbytes.
  { unfold Swagger. by rewrite Huri, Hloc, Hbody. }
  split; [done|]. intros e Hdoc. unfold Mounts. by rewrite Hbytes, Hdoc.
Qed.

Lemma inline_text_is_not_validated_witness :
  Swagger Reference.collaborators Variants.notJsonApi = Returns (RawBytes "paths:") ∧
  ∀ e, Swagger_UnmarshalJSON Reference.collaborators (RawBytes "paths:") = Err e →
       Mounts Reference.collaborators Variants.notJsonApi
       = Fails ("Cannot parse Swagger definition: " +:+ e).
Proof.
  apply (inline_text_is_not_validated Reference.collaborators Variants.notJsonApi);
    reflexivity.
Defined.

Example Mounts_not_json :
  Mounts Reference.collaborators Variants.notJsonApi
  = Fails "Cannot parse Swagger definition: text refused".
Proof. reflexivity. Qed.

(** ** When the walk goes through *)

Section Success.
Context (c : Collaborators).
Hypothesis json_Marshal_total : ∀ v, json_Marshal_error c v = None.

Lemma json_Marshal_writes v : json_Marshal c v = Ok (JsonBytes (encode v)).
Proof. unfold json_Marshal. by rewrite json_Marshal_total. Qed.

Lemma methodsError_written pathItem methods : methodsError c pathItem methods = None.
Proof.
  induction methods as [|method rest IH]; [done|]. cbn [methodsError].
  destruct (integrationSeen c pathItem method) as [seen|e] eqn:Hseen; [done|].
  unfold integrationSeen in Hseen. destruct (JSONLookup pathItem _) as [v|]; [|done].
  rewrite json_Marshal_writes in Hseen.
  by destruct (Extensions (Operation_UnmarshalJSON c _) !! _) as [[]|].
Qed.

Lemma mountPath_decodable path (pathItem : PathItem) :
  (∀ anyMethod, Extensions pathItem !! apiGatewayAnyMethodExtension = Some anyMethod →
                nullOrObject anyMethod = true) →
  mountPath c (path, pathItem) [] = Ok (pathMounts c (path, pathItem)).
Proof.
  intros Hdecodable.
  destruct (mountPath c (path, pathItem) []) as [mounts|e] eqn:Hrun.
  { by apply mountPath_Ok in Hrun as ->. }
  exfalso. unfold mountPath in Hrun.
  rewrite forRange_mountMethod, methodsError_written in Hrun.
  destruct (Extensions pathItem !! apiGatewayAnyMethodExtension) as [anyMethod|]; [|done].
  specialize (Hdecodable anyMethod eq_refl).
  rewrite json_Marshal_writes in Hrun. cbn [encode] in Hrun.
  unfold json_Unmarshal_ApiGatewayAnyMethod, decode in Hrun.
  by destruct anyMethod.
Qed.

Lemma mountPath_undecodable path (pathItem : PathItem) anyMethod mounts :
  Extensions pathItem !! apiGatewayAnyMethodExtension = Some anyMethod →
  nullOrObject anyMethod = false →
  mountPath c (path, pathItem) mounts
  = Err "Could not unmarshal any method josn to object model".
Proof.
  intros Hany Hkind. unfold mountPath.
  rewrite forRange_mountMethod, methodsError_written, Hany, json_Marshal_writes.
  cbn [encode]. unfold json_Unmarshal_ApiGatewayAnyMethod, decode.
  by destruct anyMethod.
Qed.

Lemma mountPath_Err_written entry mounts e :
  mountPath c entry mounts = Err e →
  e = "Could not unmarshal any method josn to object model".
Proof.
  destruct entry as [path pathItem]. unfold mountPath.
  rewrite forRange_mountMethod, methodsError_written.
  destruct (Extensions pathItem !! apiGatewayAnyMethodExtension); [|done].
  rewrite json_Marshal_writes.
  destruct (json_Unmarshal_ApiGatewayAnyMethod c _); [done|congruence].
Qed.

Lemma forRange_mountPath_Err_written entries mounts e :
  forRange (mountPath c) entries mounts = Err e →
  e = "Could not unmarshal any method josn to object model".
Proof.
  revert mounts. induction entries as [|entry rest IH]; intros mounts; cbn [forRange]; [done|].
  destruct (mountPath c entry mounts) as [mounts'|e0] eqn:Hentry; [apply IH|].
  intros [= <-]. by eapply mountPath_Err_written.
Qed.

Lemma walk_decodable paths :
  (∃ mounts, forRange (mountPath c) (rangeOrder c (Paths_Paths paths)) [] = Ok mounts)
  ↔ anyMethodsDecodable paths.
Proof.
  split.
  - intros [mounts Hloop] path pathItem anyMethod Hitem Hany.
    destruct (nullOrObject anyMethod) eqn:Hkind; [done|]. exfalso.
    apply forRange_mountPath in Hloop as [_ Hall].
    apply (rangeOrder_elem_of c) in Hitem.
    pose proof (proj1 (Forall_forall _ _) Hall _ Hitem) as Hrun. cbn beta in Hrun.
    by rewrite (mountPath_undecodable _ _ _ _ Hany Hkind) in Hrun.
  - intros Hdecodable. rewrite forRange_mountPath_Ok; [by eexists|].
    apply Forall_forall. intros [path pathItem] Hin%(rangeOrder_elem_of c).
    apply mountPath_decodable. intros anyMethod Hany. by eapply Hdecodable.
Qed.

End Success.

(** X18. What decides whether the walk goes through.  When [json.Marshal]
    refuses nothing and the document decodes with a paths object, [Mounts]
    returns a mount list exactly when the any-method payload of every path
    that has one is null or an object; in every other case it fails with
    "Could not unmarshal any method josn to object model".  The
    integrations of the operations play no part in it. *)
Theorem Mounts_returns_exactly_when (c : Collaborators) (api : AWSServerlessApi)
    (swagger : spec_Swagger) (paths : Paths) :
  (∀ v, json_Marshal_error c v = None) →
  parsesTo c api swagger →
  Swagger_Paths swagger = Some paths →
  ((∃ mounts, Mounts c api = Returns mounts) ↔ anyMethodsDecodable paths) ∧
  ((∃ mounts, Mounts c api = Returns mounts) ∨
   Mounts c api = Fails "Could not unmarshal any method josn to object model").
Proof.
  intros Hmarshal Hparsed Hpaths. rewrite (Mounts_parsed _ _ _ Hparsed), Hpaths.
  rewrite <- (walk_decodable c Hmarshal).
  destruct (forRange _ _ _) as [mounts|e] eqn:Hloop; cbn [outcome].
  - split; [|left; by eexists]. split; intros _; by eexists.
  - apply (forRange_mountPath_Err_written c Hmarshal) in Hloop as ->.
    split; [|by right]. split; by intros [? ?].
Qed.

Lemma Mounts_returns_exactly_when_witness :
  ((∃ mounts, Mounts Reference.collaborators Examples.brokenAnyMethodApi = Returns mounts)
   ↔ anyMethodsDecodable
       (default {| Paths_Paths := ∅ |}
          (Swagger_Paths (Examples.documentOf Examples.brokenAnyMethodApi)))) ∧
  ((∃ mounts, Mounts Reference.collaborators Examples.brokenAnyMethodApi = Returns mounts) ∨
   Mounts Reference.collaborators Examples.brokenAnyMethodApi
   = Fails "Could not unmarshal any method josn to object model").
Proof.
  apply (Mounts_returns_exactly_when Reference.collaborators Examples.brokenAnyMethodApi
           (Examples.documentOf Examples.brokenAnyMethodApi)).
  - intros v. reflexivity.
  - eexists. split; reflexivity.
  - reflexivity.
Defined.

(** ** The version of a stored definition *)

Lemma string_of_int_invalid (n : Z) :
  (n < 0 ∨ 1114111 < n ∨ 55296 ≤ n ≤ 57343)%Z →
  string_of_int n = String (byte 239) (String (byte 191) (String (byte 189) EmptyString)).
Proof.
  intros Hinvalid. unfold string_of_int.
  assert (((n <? 0) || (1114111 <? n) || ((55296 <=? n) && (n <=? 57343)))%Z = true) as ->;
    [|done].
  rewrite !orb_true_iff, andb_true_iff, !Z.ltb_lt, !Z.leb_le. lia.
Qed.

(** X19. The version of a location is turned into the version id by the
    conversion [string(int)], which reads the number as a code point: all
    versions that are no code point (negative, above U+10FFFF or a
    surrogate) become the same id, so two locations of one object that
    differ only in such versions are resolved alike. *)
Theorem versions_outside_unicode_coincide (c : Collaborators)
    (loc1 loc2 : AWSServerlessApi_S3Location) :
  Bucket loc1 = Bucket loc2 →
  Key loc1 = Key loc2 →
  (Version loc1 < 0 ∨ 1114111 < Version loc1 ∨ 55296 ≤ Version loc1 ≤ 57343)%Z →
  (Version loc2 < 0 ∨ 1114111 < Version loc2 ∨ 55296 ≤ Version loc2 ≤ 57343)%Z →
  getSwaggerFromS3Location c loc1 = getSwaggerFromS3Location c loc2.
Proof.
  intros Hbucket Hkey Hversion1 Hversion2. unfold getSwaggerFromS3Location.
  by rewrite Hbucket, Hkey, (string_of_int_invalid _ Hversion1),
    (string_of_int_invalid _ Hversion2).
Qed.

Lemma versions_outside_unicode_coincide_witness :
  getSwaggerFromS3Location Reference.collaborators
    {| Bucket := "bucket"; Key := "key"; Version := -1 |}
  = getSwaggerFromS3Location Reference.collaborators
      {| Bucket := "bucket"; Key := "key"; Version := 2000000 |}.
Proof.
  apply (versions_outside_unicode_coincide Reference.collaborators
           {| Bucket := "bucket"; Key := "key"; Version := -1 |}
           {| Bucket := "bucket"; Key := "key"; Version := 2000000 |}).
  - reflexivity.
  - reflexivity.
  - left. cbn. lia.
  - right. left. cbn. lia.
Defined.

(** ** Handlers and routes *)

Section Routes.
Context (c : Collaborators) (Integration Arn : Type).
Context (getFunctionArn : Integration → option Arn * option error).
Context (unmarshal : bytes → Result Integration).
Context (law : ∃ integration, unmarshal (JsonBytes JNull) = Ok integration).

Local Abbreviation c' := (withIntegration c Integration Arn getFunctionArn unmarshal law).

Lemma routeOf_createMount (d : Collaborators) path verb integration :
  routeOf (createMount d path verb integration) = (path, path, verb).
Proof.
  unfold routeOf. by destruct (createMount_fields d path verb integration) as (-> & -> & -> & _).
Qed.

Lemma explicitMounts_routes path pathItem methods :
  routeOf <$> explicitMounts c' path pathItem methods
  = routeOf <$> explicitMounts c path pathItem methods.
Proof.
  unfold explicitMounts. induction methods as [|method rest IH]; [done|].
  rewrite !bind_cons, !fmap_app, IH. f_equal. unfold explicitMount.
  change (integrationSeen c' pathItem method) with (integrationSeen c pathItem method).
  destruct (integrationSeen c pathItem method) as [[integration|]|]; [|done..].
  cbn [fmap list_fmap]. by rewrite !routeOf_createMount.
Qed.

Lemma wildcardMounts_routes path pathItem :
  routeOf <$> wildcardMounts c' path pathItem = routeOf <$> wildcardMounts c path pathItem.
Proof.
  unfold wildcardMounts.
  destruct (Extensions pathItem !! apiGatewayAnyMethodExtension) as [anyMethod|]; [|done].
  change (json_Unmarshal_ApiGatewayAnyMethod c' (JsonBytes anyMethod))
    with (json_Unmarshal_ApiGatewayAnyMethod c (JsonBytes anyMethod)).
  destruct (json_Unmarshal_ApiGatewayAnyMethod c (JsonBytes anyMethod)); [|done].
  change (mappedAfter c' pathItem) with (mappedAfter c pathItem).
  rewrite <- !list_fmap_compose. apply list_fmap_ext. intros _ method _.
  unfold compose, anyMount. by rewrite !routeOf_createMount.
Qed.

Lemma pathMounts_routes entry :
  routeOf <$> pathMounts c' entry = routeOf <$> pathMounts c entry.
Proof.
  unfold pathMounts. by rewrite !fmap_app, explicitMounts_routes, wildcardMounts_routes.
Qed.

Lemma mountPath_shape (d : Collaborators) entry mounts :
  mountPath d entry mounts =
  match mountPath d entry [] with
  | Ok _ => Ok (mounts ++ pathMounts d entry)
  | Err e => Err e
  end.
Proof.
  destruct (mountPath d entry mounts) as [l|e] eqn:Hrun.
  - pose proof (mountPath_from_nil _ _ _ _ Hrun) as ->. by apply mountPath_Ok in Hrun as ->.
  - destruct entry as [path pathItem]. unfold mountPath in *.
    rewrite forRange_mountMethod in *.
    destruct (methodsError d pathItem HttpMethods); [done|].
    destruct (Extensions pathItem !! apiGatewayAnyMethodExtension); [|done].
    destruct (json_Marshal d _); [|done].
    by destruct (json_Unmarshal_ApiGatewayAnyMethod d _).
Qed.

Lemma mountPath_same_error entry :
  match mountPath c' entry [], mountPath c entry [] with
  | Ok _, Ok _ => True
  | Err e', Err e => e' = e
  | _, _ => False
  end.
Proof.
  destruct entry as [path pathItem]. unfold mountPath. rewrite !forRange_mountMethod.
  change (methodsError c' pathItem HttpMethods) with (methodsError c pathItem HttpMethods).
  destruct (methodsError c pathItem HttpMethods); [done|].
  destruct (Extensions pathItem !! apiGatewayAnyMethodExtension) as [anyMethod|]; [|done].
  change (json_Marshal c' (VJSON anyMethod)) with (json_Marshal c (VJSON anyMethod)).
  destruct (json_Marshal c (VJSON anyMethod)) as [data|]; [|done].
  change (json_Unmarshal_ApiGatewayAnyMethod c' data)
    with (json_Unmarshal_ApiGatewayAnyMethod c data).
  by destruct (json_Unmarshal_ApiGatewayAnyMethod c data).
Qed.

Lemma forRange_mountPath_routes entries mounts' mounts :
  routeOf <$> mounts' = routeOf <$> mounts →
  match forRange (mountPath c') entries mounts', forRange (mountPath c) entries mounts with
  | Ok l', Ok l => routeOf <$> l' = routeOf <$> l
  | Err e', Err e => e' = e
  | _, _ => False
  end.
Proof.
  revert mounts' mounts. induction entries as [|entry rest IH]; intros mounts' mounts Hsame;
    cbn [forRange]; [done|].
  rewrite (mountPath_shape c' entry mounts'), (mountPath_shape c entry mounts).
  pose proof (mountPath_same_error entry) as Herror.
  destruct (mountPath c' entry []), (mountPath c entry []); try done.
  apply IH. by rewrite !fmap_app, pathMounts_routes, Hsame.
Qed.

End Routes.

(** X20. The handlers never decide the routes.  Whatever the type
    [ApiGatewayIntegration] is, however its payloads decode and whatever
    [GetFunctionArn] returns, [Mounts] fails or panics in the same cases
    with the same message, and returns mounts with the same names, paths
    and methods in the same order: an integration that cannot be read or
    names no function costs a mount its handler and nothing else. *)
Theorem handlers_never_decide_routes (c : Collaborators) (Integration Arn : Type)
    (getFunctionArn : Integration → option Arn * option error)
    (unmarshal : bytes → Result Integration)
    (law : ∃ integration, unmarshal (JsonBytes JNull) = Ok integration)
    (api : AWSServerlessApi) :
  routesOf (Mounts (withIntegration c Integration Arn getFunctionArn unmarshal law) api)
  = routesOf (Mounts c api).
Proof.
  set (c' := withIntegration c Integration Arn getFunctionArn unmarshal law).
  unfold Mounts. change (Swagger c' api) with (Swagger c api).
  destruct (Swagger c api) as [jsonDefinition| |]; [|done..].
  change (Swagger_UnmarshalJSON c' jsonDefinition) with (Swagger_UnmarshalJSON c jsonDefinition).
  destruct (Swagger_UnmarshalJSON c jsonDefinition) as [swagger|]; [|done].
  destruct (Swagger_Paths swagger) as [paths|]; [|done].
  change (rangeOrder c' (Paths_Paths paths)) with (rangeOrder c (Paths_Paths paths)).
  pose proof (forRange_mountPath_routes c Integration Arn getFunctionArn unmarshal law
                (rangeOrder c (Paths_Paths paths)) [] [] eq_refl) as Hloop.
  fold c' in Hloop.
  destruct (forRange (mountPath c') _ _), (forRange (mountPath c) _ _); try done;
    cbn [outcome routesOf]; congruence.
Qed.

Lemma handlers_never_decide_routes_witness :
  routesOf (Mounts Variants.unreadable Variants.twoPathsApi)
  = routesOf (Mounts Reference.collaborators Variants.twoPathsApi).
Proof.
  apply (handlers_never_decide_routes Reference.collaborators unit unit
           (λ _, (None, Some "no function in the integration"))
           (λ data, match data with
                    | JsonBytes JNull => Ok ()
                    | _ => Err "json: cannot unmarshal"
                    end)
           (ex_intro _ () eq_refl) Variants.twoPathsApi).
Defined.

Example Mounts_unreadable_integrations :
  Mounts Variants.unreadable Variants.twoPathsApi
  = Returns ((λ mount, {| Name := Name mount; Path := Path mount; Method := Method mount;
                          IntegrationArn := None |})
               <$> Examples.mountsOf Variants.twoPathsApi).
Proof. reflexivity. Qed.
